(** * The journal entry service: POST, GET, DELETE and PUT on /api/entry

    A shallow embedding of the four route handlers of the entry service and
    of the SQL statements they send to the database, followed by the
    properties of the service.

    The database is the state: three tables held as lists of rows in storage
    order, and the AUTO_INCREMENT counter of [Entry].  A handler is a function
    from the request and the state to a response and the next state.  A
    statement that fails throws; the state reached so far is kept, since the
    handlers open no transaction. *)

From Stdlib Require Import ZArith List String Ascii Bool Lia.
From Stdlib Require Import Permutation Sorted.
From Stdlib Require Import DecimalString.
Import ListNotations.

Open Scope string_scope.
Open Scope list_scope.
Open Scope Z_scope.

(** ** Tables *)

(** A point in time (a DATETIME column, a JavaScript [Date]). *)
Definition Timestamp := Z.

(** Modelled from the spec: the schema of the tables, whose CREATE TABLE
    statements are not among the sources.  [Entry] is
    [{id: integer (primary key, auto-assigned), user, text, createdAt}],
    [createdAt] being filled by the database; [Competency] is
    [{id, skill, description}]; [EntryCompetency] is the join relation
    [{entryID, competencyID}] without identity of its own.  No constraint is
    put on the rows of [EntryCompetency]: an id that names no competency
    persists as a dangling reference, and the same pair may be stored
    twice. *)
Record Entry := mkEntry {
  id : Z;
  user : string;
  text : string;
  createdAt : Timestamp
}.

Record Competency := mkCompetency {
  c_id : Z;
  skill : string;
  description : string
}.

Record EntryCompetency := mkEntryCompetency {
  entryID : Z;
  competencyID : Z
}.

Record Db := mkDb {
  Entry_tbl : list Entry;
  EntryCompetency_tbl : list EntryCompetency;
  Competency_tbl : list Competency;
  auto_increment : Z
}.

(** The metadata [connection.execute] returns for a statement that is not a
    SELECT. *)
Record ResultSetHeader := mkHeader {
  affectedRows : Z;
  insertId : Z
}.

(** A value bound to a [?] of a prepared statement: a JavaScript number or a
    JavaScript string. *)
Inductive Param :=
| PInt (n : Z)
| PStr (s : string).

(** ** Requests, sessions and responses *)

Record SessionUser := mkUser { email : option string }.
Record Session := mkSession { session_user : option SessionUser }.

(** The body [{text, competencyIDs}] of a POST or PUT. *)
Record Body := mkBody {
  b_text : string;
  competencyIDs : list Z
}.

Record Request := mkRequest {
  pathname : string;
  json : Body
}.

(** A row of the GET result: [e.id], [e.text], [e.createdAt] and the
    aggregated JSON array, whose elements are numbers or [null]. *)
Record EntryRow := mkRow {
  r_id : Z;
  r_text : string;
  r_createdAt : Timestamp;
  r_competencies : list (option Z)
}.

Inductive Json :=
| JError (error : string)
| JMessage (message : string)
| JEntries (entries : list EntryRow)
| JCreated (new_id : Z) (new_text : string) (new_createdAt : Timestamp)
           (new_competencies : list Z).

Record Response := mkResponse {
  body : Json;
  status : Z
}.

(** [NextResponse.json(body, init)]: the status is 200 unless [init] gives
    one. *)
Definition NextResponse_json (b : Json) (init : option Z) : Response :=
  mkResponse b (match init with Some st => st | None => 200 end).

(** ** JavaScript helpers *)

(** [s.split(sep)] for a one-character separator. *)
Fixpoint split (sep : ascii) (s : string) : list string :=
  match s with
  | EmptyString => [EmptyString]
  | String c s' =>
      if Ascii.eqb c sep then EmptyString :: split sep s'
      else match split sep s' with
           | [] => [String c EmptyString]
           | h :: t => String c h :: t
           end
  end.

(** [a.pop()]: the last element, [undefined] on the empty array. *)
Fixpoint pop (a : list string) : option string :=
  match a with
  | [] => None
  | [x] => Some x
  | _ :: t => pop t
  end.

(** Truthiness of a string that may be [undefined]: [undefined] and the empty
    string are falsy. *)
Definition truthy (v : option string) : bool :=
  match v with
  | None => false
  | Some s => negb (s =? EmptyString)%string
  end.

(** [!session || !session.user?.email] fails exactly when this is [Some]. *)
Definition session_email (session : option Session) : option string :=
  match session with
  | Some (mkSession (Some (mkUser (Some e)))) =>
      if truthy (Some e) then Some e else None
  | _ => None
  end.

(** [url.pathname.split('/').pop()] *)
Definition path_entryID (req : Request) : option string :=
  pop (split "/"%char (pathname req)).

(** ** Relational operators *)

(** [l LEFT JOIN r ON on]: every row of [l] with each matching row of [r], or
    once with NULLs when none matches. *)
Definition left_join {A B : Type} (on : A -> B -> bool)
    (l : list A) (r : list B) : list (A * option B) :=
  flat_map (fun a =>
              match filter (on a) r with
              | [] => [(a, None)]
              | bs => map (fun b => (a, Some b)) bs
              end) l.

(** The first row of each key, in order of first appearance. *)
Fixpoint distinct_by {A : Type} (key : A -> Z) (l : list A) : list A :=
  match l with
  | [] => []
  | a :: l' =>
      a :: filter (fun b => negb (key b =? key a)) (distinct_by key l')
  end.

(** [GROUP BY key]: one group per key, as a representative row and all the
    rows of that key. *)
Definition group_by {A : Type} (key : A -> Z) (l : list A)
    : list (A * list A) :=
  map (fun a => (a, filter (fun b => key b =? key a) l)) (distinct_by key l).

(** [ORDER BY key DESC], by insertion. *)
Fixpoint insert_desc {A : Type} (key : A -> Z) (a : A) (l : list A) : list A :=
  match l with
  | [] => [a]
  | b :: l' => if key b <? key a then a :: b :: l'
               else b :: insert_desc key a l'
  end.

Fixpoint order_by_desc {A : Type} (key : A -> Z) (l : list A) : list A :=
  match l with
  | [] => []
  | a :: l' => insert_desc key a (order_by_desc key l')
  end.

(** The order of two consecutive rows under [ORDER BY key DESC], and the
    same without ties. *)
Definition desc {A : Type} (key : A -> Z) (a b : A) : Prop := key a >= key b.
Definition strictly_desc {A : Type} (key : A -> Z) (a b : A) : Prop :=
  key a > key b.

(** ** Reading a decimal path segment *)

Definition digit_of (c : ascii) : option Z :=
  let n := Z.of_nat (nat_of_ascii c) in
  if (48 <=? n) && (n <=? 57) then Some (n - 48) else None.

Fixpoint decimal_acc (acc : Z) (s : string) : option Z :=
  match s with
  | EmptyString => Some acc
  | String c s' =>
      match digit_of c with
      | Some d => decimal_acc (10 * acc + d) s'
      | None => None
      end
  end.

(** The strict reading of a string as an integer: a non-empty run of decimal
    digits, anything else is refused. *)
Definition decimal_id (s : string) : option Z :=
  match s with
  | EmptyString => None
  | _ => decimal_acc 0 s
  end.

(** ** The SELECT of GET

    SELECT e.id, e.text, e.createdAt, JSON_ARRAYAGG(c.id) AS competencies
    FROM Entry e
    LEFT JOIN EntryCompetency ec ON e.id = ec.entryID
    LEFT JOIN Competency c ON ec.competencyID = c.id
    WHERE e.user = ? GROUP BY e.id ORDER BY e.id DESC

    The owner comparison [e.user = ?] is modelled as equality of strings. *)

Definition JoinedRow : Type :=
  (Entry * option EntryCompetency) * option Competency.

Definition entry_of (r : JoinedRow) : Entry := fst (fst r).

Definition on_entryID (e : Entry) (ec : EntryCompetency) : bool :=
  id e =? entryID ec.

(** A comparison with NULL is not true. *)
Definition on_competencyID (r : Entry * option EntryCompetency)
    (c : Competency) : bool :=
  match snd r with
  | Some ec => competencyID ec =? c_id c
  | None => false
  end.

Definition joined (db : Db) : list JoinedRow :=
  left_join on_competencyID
    (left_join on_entryID (Entry_tbl db) (EntryCompetency_tbl db))
    (Competency_tbl db).

(** [JSON_ARRAYAGG(c.id)]: one element per row of the group, [null] for a
    row whose [c.id] is NULL. *)
Definition JSON_ARRAYAGG (rows : list JoinedRow) : list (option Z) :=
  map (fun r => option_map c_id (snd r)) rows.

Definition aggregate (g : JoinedRow * list JoinedRow) : EntryRow :=
  let e := entry_of (fst g) in
  mkRow (id e) (text e) (createdAt e) (JSON_ARRAYAGG (snd g)).

Definition select_entries (userEmail : string) (db : Db) : list EntryRow :=
  let rows := filter (fun r => (user (entry_of r) =? userEmail)%string)
                     (joined db) in
  order_by_desc r_id
    (map aggregate (group_by (fun r => id (entry_of r)) rows)).

(** ** Statements that throw *)

Inductive outcome (A : Type) :=
| Ok (a : A) (db : Db)
| Throw (db : Db).
Arguments Ok {A} a db.
Arguments Throw {A} db.

Definition M (A : Type) := Db -> outcome A.

Definition ret {A : Type} (a : A) : M A := fun db => Ok a db.

Definition bind {A B : Type} (m : M A) (k : A -> M B) : M B :=
  fun db => match m db with
            | Ok a db' => k a db'
            | Throw db' => Throw db'
            end.

Notation "x <- m ;; k" := (bind m (fun x => k))
  (at level 61, m at next level, right associativity).
Notation "m ;; k" := (bind m (fun _ => k))
  (at level 61, right associativity).

(** [for (const x of xs) { await body(x) }] *)
Fixpoint for_of {A : Type} (xs : list A) (body_of : A -> M ResultSetHeader)
    : M unit :=
  match xs with
  | [] => ret tt
  | x :: xs' => body_of x ;; for_of xs' body_of
  end.

(** [try { m } catch (err) { return h }] *)
Definition try_catch {A : Type} (m : M A) (h : A) : Db -> A * Db :=
  fun db => match m db with
            | Ok a db' => (a, db')
            | Throw db' => (h, db')
            end.

Definition set_Entry_tbl (db : Db) (t : list Entry) : Db :=
  mkDb t (EntryCompetency_tbl db) (Competency_tbl db) (auto_increment db).

Definition set_EntryCompetency_tbl (db : Db) (t : list EntryCompetency) : Db :=
  mkDb (Entry_tbl db) t (Competency_tbl db) (auto_increment db).

Definition count {A : Type} (p : A -> bool) (l : list A) : Z :=
  Z.of_nat (List.length (filter p l)).

Section Service.

(** How the database reads a string that is bound where an integer column is
    compared or filled: [Some n] when it reads the integer [n], [None] when
    it refuses the statement with an error.  It depends on the server's SQL
    mode, so the handlers are studied for every such reading. *)
Variable int_of_string : string -> option Z.

Definition as_int (p : Param) : option Z :=
  match p with
  | PInt n => Some n
  | PStr s => int_of_string s
  end.

(** INSERT INTO Entry (user, text) VALUES (?, ?)
    [id] takes the AUTO_INCREMENT value and [createdAt] its default, the
    time [now] of the database. *)
Definition insert_Entry (now : Timestamp) (u t : string) : M ResultSetHeader :=
  fun db =>
    let n := auto_increment db in
    Ok (mkHeader 1 n)
       (mkDb (Entry_tbl db ++ [mkEntry n u t now]) (EntryCompetency_tbl db)
             (Competency_tbl db) (n + 1)).

(** INSERT INTO EntryCompetency (entryID, competencyID) VALUES (?, ?) *)
Definition insert_EntryCompetency (e c : Param) : M ResultSetHeader :=
  fun db =>
    match as_int e, as_int c with
    | Some e', Some c' =>
        Ok (mkHeader 1 0)
           (set_EntryCompetency_tbl db
              (EntryCompetency_tbl db ++ [mkEntryCompetency e' c']))
    | _, _ => Throw db
    end.

(** DELETE FROM EntryCompetency WHERE entryID = ? *)
Definition delete_EntryCompetency (e : Param) : M ResultSetHeader :=
  fun db =>
    match as_int e with
    | Some e' =>
        let hit := fun ec => entryID ec =? e' in
        Ok (mkHeader (count hit (EntryCompetency_tbl db)) 0)
           (set_EntryCompetency_tbl db
              (filter (fun ec => negb (hit ec)) (EntryCompetency_tbl db)))
    | None => Throw db
    end.

Definition where_id_user (i : Z) (u : string) (e : Entry) : bool :=
  (id e =? i) && (user e =? u)%string.

(** DELETE FROM Entry WHERE id = ? AND user = ? *)
Definition delete_Entry (i : Param) (u : string) : M ResultSetHeader :=
  fun db =>
    match as_int i with
    | Some i' =>
        Ok (mkHeader (count (where_id_user i' u) (Entry_tbl db)) 0)
           (set_Entry_tbl db
              (filter (fun e => negb (where_id_user i' u e)) (Entry_tbl db)))
    | None => Throw db
    end.

(** UPDATE Entry SET text = ? WHERE id = ? AND user = ?
    [affectedRows] counts the rows the WHERE clause finds (the driver's
    default FOUND_ROWS flag), also when the text is the same as before. *)
Definition update_Entry (t : string) (i : Param) (u : string)
    : M ResultSetHeader :=
  fun db =>
    match as_int i with
    | Some i' =>
        Ok (mkHeader (count (where_id_user i' u) (Entry_tbl db)) 0)
           (set_Entry_tbl db
              (map (fun e => if where_id_user i' u e
                             then mkEntry (id e) (user e) t (createdAt e)
                             else e)
                   (Entry_tbl db)))
    | None => Throw db
    end.

(** ** The handlers *)

Definition not_authenticated : Response :=
  NextResponse_json (JError "Not Authenticated") (Some 401).

Definition id_not_provided : Response :=
  NextResponse_json (JError "Entry ID not provided") (Some 400).

(** [db_now] is the database's clock at the INSERT, [now] is [new Date()]
    when the response is built. *)
Definition POST (session : option Session) (req : Request)
    (db_now now : Timestamp) : Db -> Response * Db :=
  try_catch
    (match session_email session with
     | None => ret not_authenticated
     | Some email =>
         let text := b_text (json req) in
         let competencyIDs := competencyIDs (json req) in
         entryResult <- insert_Entry db_now email text ;;
         let entryID := insertId entryResult in
         for_of competencyIDs
           (fun compID =>
              insert_EntryCompetency (PInt entryID) (PInt compID)) ;;
         ret (NextResponse_json
                (JCreated entryID text now competencyIDs) None)
     end)
    (NextResponse_json (JError "Failed to add the entry.") (Some 500)).

Definition GET (session : option Session) (db : Db) : Response :=
  match session_email session with
  | None => NextResponse_json (JEntries []) (Some 200)
  | Some userEmail =>
      NextResponse_json (JEntries (select_entries userEmail db)) None
  end.

Definition DELETE (session : option Session) (req : Request)
    : Db -> Response * Db :=
  try_catch
    (match session_email session with
     | None => ret not_authenticated
     | Some email =>
         let entryID := path_entryID req in
         if negb (truthy entryID) then ret id_not_provided
         else
           let entryID :=
             match entryID with Some s => s | None => EmptyString end in
           delete_EntryCompetency (PStr entryID) ;;
           result <- delete_Entry (PStr entryID) email ;;
           if affectedRows result =? 0 then
             ret (NextResponse_json
                    (JError "Entry not found or not authorized to delete")
                    (Some 404))
           else
             ret (NextResponse_json
                    (JMessage "Entry deleted successfully") None)
     end)
    (NextResponse_json (JError "Failed to delete the entry") (Some 500)).

Definition PUT (session : option Session) (req : Request)
    : Db -> Response * Db :=
  try_catch
    (match session_email session with
     | None => ret not_authenticated
     | Some email =>
         let entryID := path_entryID req in
         if negb (truthy entryID) then ret id_not_provided
         else
           let entryID :=
             match entryID with Some s => s | None => EmptyString end in
           let text := b_text (json req) in
           let competencyIDs := competencyIDs (json req) in
           updateResult <- update_Entry text (PStr entryID) email ;;
           if affectedRows updateResult =? 0 then
             ret (NextResponse_json
                    (JError "Entry not found or not authorized to edit")
                    (Some 404))
           else
             delete_EntryCompetency (PStr entryID) ;;
             for_of competencyIDs
               (fun compID =>
                  insert_EntryCompetency (PStr entryID) (PInt compID)) ;;
             ret (NextResponse_json
                    (JMessage "Entry updated successfully") None)
     end)
    (NextResponse_json (JError "Failed to update the entry") (Some 500)).

End Service.

(** ** Derived notions used in the statements *)

(** The competency ids attached to entry [n], in storage order. *)
Definition attached (n : Z) (db : Db) : list Z :=
  map competencyID
    (filter (fun ec => entryID ec =? n) (EntryCompetency_tbl db)).

(** The tag rows of the entries other than [n]. *)
Definition others (n : Z) (db : Db) : list EntryCompetency :=
  filter (fun ec => negb (entryID ec =? n)) (EntryCompetency_tbl db).

(** [Entry.id] is the primary key, handed out by AUTO_INCREMENT. *)
Definition wf (db : Db) : Prop :=
  NoDup (map id (Entry_tbl db)) /\
  Forall (fun e => id e < auto_increment db) (Entry_tbl db).

(** The joined rows of one entry. *)
Definition rows_of (db : Db) (e : Entry) : list JoinedRow :=
  left_join on_competencyID
    (left_join on_entryID [e] (EntryCompetency_tbl db))
    (Competency_tbl db).

(** What the two LEFT JOINs and the aggregate leave of one attached
    competency id [c]: the id once per [Competency] row that carries it, and
    [null] when no row does. *)
Definition competency_refs (db : Db) (c : Z) : list (option Z) :=
  match filter (fun k => c =? c_id k) (Competency_tbl db) with
  | [] => [None]
  | cs => map (fun k => Some (c_id k)) cs
  end.

(** What GET shows as the competencies of entry [n]: the references of its
    attached ids, and a single [null] when nothing is attached. *)
Definition annotation (db : Db) (n : Z) : list (option Z) :=
  match attached n db with
  | [] => [None]
  | ids => flat_map (competency_refs db) ids
  end.

(** The rows of a response that carries a list of entries. *)
Definition entries_of (r : Response) : list EntryRow :=
  match body r with
  | JEntries rows => rows
  | _ => []
  end.

(** A session that carries the email [e]. *)
Definition signed_in (e : string) : option Session :=
  Some (mkSession (Some (mkUser (Some e)))).

(** ** Sample data *)

Definition catalog : list Competency :=
  [mkCompetency 1 "Teamwork" "Works with others";
   mkCompetency 2 "Initiative" "Starts things";
   mkCompetency 3 "Punctuality" "Is on time"].

(** Ann owns entry 1, tagged 1 and 3; Bob owns entry 2, without tags. *)
Definition sample : Db :=
  mkDb [mkEntry 1 "ann@school.org" "first" 1000;
        mkEntry 2 "bob@school.org" "second" 2000]
       [mkEntryCompetency 1 1; mkEntryCompetency 1 3]
       catalog 3.

Definition ann : option Session := signed_in "ann@school.org".
Definition bob : option Session := signed_in "bob@school.org".

Definition entry1 : Entry := mkEntry 1 "ann@school.org" "first" 1000.
Definition entry2 : Entry := mkEntry 2 "bob@school.org" "second" 2000.

(** Requests on the collection path, on entry 1, on an id nobody has, and
    on the collection path with a trailing slash. *)
Definition on_collection : Request :=
  mkRequest "/api/entry" (mkBody "third" [1; 3]).
Definition on_entry1 : Request :=
  mkRequest "/api/entry/1" (mkBody "edited" [2]).
Definition on_entry7 : Request :=
  mkRequest "/api/entry/7" (mkBody "edited" [2]).
Definition on_slash : Request :=
  mkRequest "/api/entry/" (mkBody "edited" [2]).

(** The lenient reading of a string as an integer: what is not a run of
    decimal digits reads as 0. *)
Definition lenient_id (s : string) : option Z :=
  match decimal_id s with
  | Some n => Some n
  | None => Some 0
  end.

(** ** More notions on the database *)

(** Every tag row refers to an entry that exists. *)
Definition refs_ok (db : Db) : Prop :=
  forall ec, In ec (EntryCompetency_tbl db) ->
             exists e, In e (Entry_tbl db) /\ id e = entryID ec.

(** The row GET shows for an entry. *)
Definition entry_row (db : Db) (e : Entry) : EntryRow :=
  mkRow (id e) (text e) (createdAt e) (annotation db (id e)).

Definition owned_by (u : string) (e : Entry) : bool := (user e =? u)%string.

(** A string without the character [/]. *)
Fixpoint no_slash (s : string) : bool :=
  match s with
  | EmptyString => true
  | String c s' => negb (Ascii.eqb c "/"%char) && no_slash s'
  end.

(** ** The thoughts page

    The state of the component and its event handlers.  A handler that
    fetches is a function of the page state and the database, the route
    handler being run on the request the page sends. *)

(** [competencies] holds the elements of the JSON array as they arrive:
    numbers, or [null]. *)
Record Thought := mkThought {
  t_id : Z;
  t_text : string;
  t_time : string;
  t_competencies : list (option Z)
}.

Record Page := mkPage {
  thoughts : list Thought;
  competencies : list Competency;
  editing : option Thought;
  newText : string;
  newCompetencies : list (option Z)
}.

(** [res.ok]: the status is in the range 200-299. *)
Definition ok (res : Response) : bool :=
  (200 <=? status res) && (status res <=? 299).

(** The decimal form a template literal gives an integer. *)
Definition String_of_number (n : Z) : string :=
  NilZero.string_of_int (Z.to_int n).

(** [`/api/entry/${id}`] *)
Definition entry_url (n : Z) : string := "/api/entry/" ++ String_of_number n.

(** The numbers of an array of JSON values, when none of them is [null]. *)
Fixpoint numbers (l : list (option Z)) : option (list Z) :=
  match l with
  | [] => Some []
  | None :: _ => None
  | Some n :: l' => option_map (cons n) (numbers l')
  end.

(** [loadThoughts]: [format] is the rendering of [createdAt] by
    [toLocaleString]. *)
Definition formatted (format : Timestamp -> string) (row : EntryRow)
    : Thought :=
  mkThought (r_id row) (r_text row) (format (r_createdAt row))
            (r_competencies row).

Definition loadThoughts (format : Timestamp -> string)
    (session : option Session) (st : Page) (db : Db) : Page :=
  let res := GET session db in
  if negb (ok res) then st
  else
    mkPage (map (formatted format) (entries_of res)) (competencies st)
           (editing st) (newText st) (newCompetencies st).

(** [handleDelete]: the request carries no body, and DELETE reads none. *)
Definition handleDelete (int_of_string : string -> option Z)
    (session : option Session) (n : Z) (st : Page) (db : Db) : Page * Db :=
  let (res, db') :=
    DELETE int_of_string session
      (mkRequest (entry_url n) (mkBody EmptyString [])) db in
  if negb (ok res) then (st, db')
  else
    (mkPage (filter (fun thought => negb (t_id thought =? n)) (thoughts st))
            (competencies st) (editing st) (newText st)
            (newCompetencies st),
     db').

Definition handleEdit (thought : Thought) (st : Page) : Page :=
  mkPage (thoughts st) (competencies st) (Some thought) (t_text thought)
         (t_competencies thought).

(** Equality of two JSON values that are numbers or [null]. *)
Definition same_value (x v : option Z) : bool :=
  match x, v with
  | Some a, Some b => a =? b
  | None, None => true
  | _, _ => false
  end.

(** [l.includes(v)] *)
Definition includes (l : list (option Z)) (v : option Z) : bool :=
  existsb (fun x => same_value x v) l.

Definition handleCompetencyChange (competencyId : Z) (st : Page) : Page :=
  let prevCompetencies := newCompetencies st in
  mkPage (thoughts st) (competencies st) (editing st) (newText st)
         (if includes prevCompetencies (Some competencyId)
          then filter (fun id => negb (same_value id (Some competencyId)))
                 prevCompetencies
          else prevCompetencies ++ [Some competencyId]).

(** [handleSaveEdit].  The body carries [newCompetencies]; the result is
    [None] when a [null] is among them, a request the model of PUT does not
    cover. *)
Definition handleSaveEdit (int_of_string : string -> option Z)
    (session : option Session) (st : Page) (db : Db) : option (Page * Db) :=
  match editing st with
  | None => Some (st, db)
  | Some ed =>
      match numbers (newCompetencies st) with
      | None => None
      | Some ids =>
          let (res, db') :=
            PUT int_of_string session
              (mkRequest (entry_url (t_id ed)) (mkBody (newText st) ids)) db in
          if negb (ok res) then Some (st, db')
          else
            Some
              (mkPage
                 (map (fun thought =>
                         if t_id thought =? t_id ed
                         then mkThought (t_id thought) (newText st)
                                (t_time thought) (newCompetencies st)
                         else thought) (thoughts st))
                 (competencies st) None EmptyString [],
               db')
      end
  end.

(** ** A sample page *)

Definition sample_format (t : Timestamp) : string := String_of_number t.

(** Ann's page after [loadThoughts] on the sample data. *)
Definition ann_page : Page :=
  loadThoughts sample_format ann (mkPage [] catalog None EmptyString [])
    sample.

Definition thought1 : Thought :=
  mkThought 1 "first" "1000" [Some 1; Some 3].

(** Ann has clicked Edit on her thought, and then has unticked both of its
    competencies. *)
Definition ann_draft : Page := handleEdit thought1 ann_page.
Definition ann_cleared : Page :=
  handleCompetencyChange 3 (handleCompetencyChange 1 ann_draft).

(** * Properties *)

(** ** Lists *)

Lemma split_nonempty (sep : ascii) (s : string) : split sep s <> [].
Proof.
  destruct s as [|c s]; simpl; [discriminate|].
  destruct (Ascii.eqb c sep); [discriminate|].
  destruct (split sep s); discriminate.
Qed.

Lemma pop_cons (x : string) (l : list string) :
  l <> [] -> pop (x :: l) = pop l.
Proof. destruct l; [congruence | reflexivity]. Qed.

Lemma pop_app (pre l : list string) : l <> [] -> pop (pre ++ l) = pop l.
Proof.
  intros Hl. induction pre as [|x pre IH]; [reflexivity|].
  rewrite <- app_comm_cons, pop_cons; [exact IH|].
  destruct pre; simpl; [exact Hl | discriminate].
Qed.

Lemma split_app (sep : ascii) (a b : string) :
  exists h t, split sep (a ++ String sep b) = (h :: t) ++ split sep b.
Proof.
  induction a as [|c a (h & t & IH)]; simpl.
  - rewrite Ascii.eqb_refl. now exists EmptyString, [].
  - rewrite IH. destruct (Ascii.eqb c sep).
    + now exists EmptyString, (h :: t).
    + now exists (String c h), t.
Qed.

(** The last segment of a path is the last segment of what follows any of
    its separators. *)
Lemma pop_split_app (sep : ascii) (a b : string) :
  pop (split sep (a ++ String sep b)) = pop (split sep b).
Proof.
  destruct (split_app sep a b) as (h & t & ->).
  apply pop_app, split_nonempty.
Qed.

(** ** LEFT JOIN, GROUP BY, ORDER BY *)

Section Relational.

Context {A B : Type}.

Lemma left_join_keeps (on : A -> B -> bool) (l : list A) (r : list B) (a : A) :
  In a l -> exists ob, In (a, ob) (left_join on l r).
Proof.
  intros Ha. unfold left_join.
  destruct (filter (on a) r) as [|b bs] eqn:E.
  - exists None. apply in_flat_map. exists a. rewrite E. simpl; auto.
  - exists (Some b). apply in_flat_map. exists a. rewrite E. simpl; auto.
Qed.

Lemma left_join_fst (on : A -> B -> bool) (l : list A) (r : list B)
    (p : A * option B) :
  In p (left_join on l r) -> In (fst p) l.
Proof.
  unfold left_join. rewrite in_flat_map. intros (a & Ha & Hp).
  destruct (filter (on a) r) as [|b bs].
  - destruct Hp as [<-|[]]. exact Ha.
  - apply in_map_iff in Hp. destruct Hp as (b' & <- & _). exact Ha.
Qed.

Lemma left_join_app (on : A -> B -> bool) (l1 l2 : list A) (r : list B) :
  left_join on (l1 ++ l2) r = left_join on l1 r ++ left_join on l2 r.
Proof. unfold left_join. apply flat_map_app. Qed.

Variable key : A -> Z.

Lemma distinct_by_incl (l : list A) (a : A) :
  In a (distinct_by key l) -> In a l.
Proof.
  induction l as [|x l IH]; simpl; [tauto|].
  intros [->|H]; [now left|].
  apply filter_In in H. right. apply IH, H.
Qed.

Lemma distinct_by_covers (l : list A) (a : A) :
  In a l -> exists b, In b (distinct_by key l) /\ key b = key a.
Proof.
  induction l as [|x l IH]; simpl; [tauto|].
  intros [->|H]; [exists a; auto|].
  destruct (IH H) as (b & Hb & Hk).
  destruct (Z.eq_dec (key b) (key x)) as [E|N].
  - exists x. split; [now left | congruence].
  - exists b. split; [right | exact Hk].
    apply filter_In. split; [exact Hb|].
    apply negb_true_iff, Z.eqb_neq, N.
Qed.

Lemma distinct_by_NoDup (l : list A) : NoDup (map key (distinct_by key l)).
Proof.
  induction l as [|x l IH]; simpl; constructor.
  - rewrite in_map_iff. intros (b & Hk & Hb).
    apply filter_In in Hb. destruct Hb as [_ Hb].
    apply negb_true_iff, Z.eqb_neq in Hb. congruence.
  - clear -IH.
    induction (distinct_by key l) as [|y m IHm]; simpl; [constructor|].
    inversion IH; subst.
    destruct (negb (key y =? key x)); simpl; auto.
    constructor; auto.
    rewrite in_map_iff in *. intros (b & Hk & Hb).
    apply filter_In in Hb. apply H1. exists b. tauto.
Qed.

Lemma insert_desc_perm (a : A) (l : list A) :
  Permutation (insert_desc key a l) (a :: l).
Proof.
  induction l as [|b l IH]; simpl; [reflexivity|].
  destruct (key b <? key a); [reflexivity|].
  rewrite IH. apply perm_swap.
Qed.

Lemma order_by_desc_perm (l : list A) : Permutation (order_by_desc key l) l.
Proof.
  induction l as [|a l IH]; simpl; [reflexivity|].
  rewrite insert_desc_perm. now constructor.
Qed.

Lemma insert_desc_sorted (a : A) (l : list A) :
  StronglySorted (desc key) l ->
  StronglySorted (desc key) (insert_desc key a l).
Proof.
  induction 1 as [|b l Hs IH Hb]; simpl.
  - repeat constructor.
  - destruct (key b <? key a) eqn:E.
    + apply Z.ltb_lt in E. constructor; [constructor; assumption|].
      constructor; [unfold desc; lia|].
      eapply Forall_impl; [|exact Hb]. unfold desc. intros; lia.
    + apply Z.ltb_ge in E. constructor; [exact IH|].
      eapply Permutation_Forall; [symmetry; apply insert_desc_perm|].
      constructor; [unfold desc; lia | exact Hb].
Qed.

Lemma order_by_desc_sorted (l : list A) :
  StronglySorted (desc key) (order_by_desc key l).
Proof.
  induction l as [|a l IH]; simpl; [constructor|].
  now apply insert_desc_sorted.
Qed.

(** Sorted rows with distinct keys are strictly sorted. *)
Lemma sorted_distinct_strict (l : list A) :
  NoDup (map key l) -> StronglySorted (desc key) l ->
  StronglySorted (strictly_desc key) l.
Proof.
  induction 2 as [|a l Hs IH Ha]; [constructor|].
  simpl in H. inversion H; subst.
  constructor; [auto|].
  rewrite Forall_forall in *. intros b Hb.
  specialize (Ha b Hb). unfold desc, strictly_desc in *.
  assert (key a <> key b).
  { intros E. apply H2. rewrite E. now apply in_map. }
  lia.
Qed.

Lemma order_by_desc_strict (l : list A) :
  NoDup (map key l) -> StronglySorted (strictly_desc key) (order_by_desc key l).
Proof.
  intros H. apply sorted_distinct_strict; [|apply order_by_desc_sorted].
  eapply Permutation_NoDup; [|exact H].
  apply Permutation_map. symmetry. apply order_by_desc_perm.
Qed.

End Relational.

(** ** The SELECT of GET *)

Lemma filter_comm {A : Type} (p q : A -> bool) (l : list A) :
  filter p (filter q l) = filter q (filter p l).
Proof.
  induction l as [|a l IH]; simpl; [reflexivity|].
  destruct (p a) eqn:P, (q a) eqn:Q; simpl; rewrite ?P, ?Q, IH; reflexivity.
Qed.

Lemma filter_all {A : Type} (p : A -> bool) (l : list A) :
  (forall a, In a l -> p a = true) -> filter p l = l.
Proof.
  induction l as [|a l IH]; simpl; intros H; [reflexivity|].
  rewrite H by now left. f_equal. apply IH. intros; apply H; now right.
Qed.

Lemma filter_none {A : Type} (p : A -> bool) (l : list A) :
  (forall a, In a l -> p a = false) -> filter p l = [].
Proof.
  induction l as [|a l IH]; simpl; intros H; [reflexivity|].
  rewrite H by now left. apply IH. intros; apply H; now right.
Qed.

Lemma NoDup_id_inj (l : list Entry) (a b : Entry) :
  NoDup (map id l) -> In a l -> In b l -> id a = id b -> a = b.
Proof.
  induction l as [|x l IH]; simpl; [tauto|].
  intros Hn Ha Hb E. inversion Hn as [|? ? Hx Hl]; subst.
  destruct Ha as [->|Ha], Hb as [->|Hb]; auto.
  - exfalso. apply Hx. rewrite E. now apply in_map.
  - exfalso. apply Hx. rewrite <- E. now apply in_map.
Qed.

Lemma joined_flat_map (db : Db) :
  joined db = flat_map (rows_of db) (Entry_tbl db).
Proof.
  unfold joined, rows_of.
  induction (Entry_tbl db) as [|e l IH]; [reflexivity|].
  change (e :: l) with ([e] ++ l).
  rewrite left_join_app, left_join_app, IH. reflexivity.
Qed.

Lemma rows_of_entry (db : Db) (e : Entry) (r : JoinedRow) :
  In r (rows_of db e) -> entry_of r = e.
Proof.
  intros H. apply left_join_fst, left_join_fst in H.
  destruct H as [H|[]]. symmetry. exact H.
Qed.

Lemma rows_of_inhabited (db : Db) (e : Entry) :
  exists r, In r (rows_of db e).
Proof.
  destruct (left_join_keeps on_entryID [e] (EntryCompetency_tbl db) e)
    as (oec & H); [now left|].
  destruct (left_join_keeps on_competencyID _ (Competency_tbl db) _ H)
    as (oc & H').
  now exists (e, oec, oc).
Qed.

Lemma joined_entry (db : Db) (r : JoinedRow) :
  In r (joined db) -> In (entry_of r) (Entry_tbl db).
Proof.
  rewrite joined_flat_map, in_flat_map. intros (e & He & Hr).
  now rewrite (rows_of_entry _ _ _ Hr).
Qed.

(** Under the primary key, the rows of the group of [e] are the joined rows
    of [e]. *)
Lemma group_rows (db : Db) (e : Entry) :
  NoDup (map id (Entry_tbl db)) -> In e (Entry_tbl db) ->
  filter (fun r => id (entry_of r) =? id e) (joined db) = rows_of db e.
Proof.
  rewrite joined_flat_map.
  induction (Entry_tbl db) as [|x l IH]; cbn [flat_map map In]; [tauto|].
  intros Hn He. inversion Hn as [|? ? Hx Hl]; subst.
  rewrite filter_app. destruct He as [->|He].
  - rewrite (filter_all _ (rows_of db e)), (filter_none _ (flat_map _ l)),
      app_nil_r; [reflexivity| |].
    all: cycle 1.
    + intros r Hr. rewrite (rows_of_entry _ _ _ Hr). apply Z.eqb_refl.
    + intros r Hr. apply in_flat_map in Hr. destruct Hr as (y & Hy & Hr).
      rewrite (rows_of_entry _ _ _ Hr). apply Z.eqb_neq.
      intros E. apply Hx. rewrite <- E. now apply in_map.
  - rewrite IH by assumption. rewrite filter_none; [reflexivity|].
    intros r Hr. rewrite (rows_of_entry _ _ _ Hr). apply Z.eqb_neq.
    intros E. apply Hx. rewrite E. now apply in_map.
Qed.

(** GET lists every entry of the caller, with the aggregate of its joined
    rows. *)
Lemma select_lists_entry (db : Db) (e : Entry) :
  NoDup (map id (Entry_tbl db)) -> In e (Entry_tbl db) ->
  In (mkRow (id e) (text e) (createdAt e) (JSON_ARRAYAGG (rows_of db e)))
     (select_entries (user e) db).
Proof.
  intros Hn He. unfold select_entries.
  eapply Permutation_in; [symmetry; apply order_by_desc_perm|].
  set (rows := filter _ (joined db)).
  destruct (rows_of_inhabited db e) as (r & Hr).
  assert (Hrows : In r rows).
  { apply filter_In. split.
    - rewrite joined_flat_map. apply in_flat_map. eauto.
    - rewrite (rows_of_entry _ _ _ Hr). apply String.eqb_refl. }
  destruct (distinct_by_covers (fun r => id (entry_of r)) rows r Hrows)
    as (a & Ha & Hk).
  rewrite (rows_of_entry _ _ _ Hr) in Hk.
  assert (Hae : entry_of a = e).
  { apply (NoDup_id_inj (Entry_tbl db)); auto.
    apply joined_entry. apply distinct_by_incl in Ha.
    apply filter_In in Ha. tauto. }
  unfold group_by. rewrite map_map. apply in_map_iff. exists a.
  split; [|exact Ha].
  unfold aggregate; simpl. rewrite Hae. f_equal. f_equal.
  unfold rows. rewrite filter_comm, group_rows by assumption.
  apply filter_all. intros x Hx.
  rewrite (rows_of_entry _ _ _ Hx). apply String.eqb_refl.
Qed.

(** Every row GET returns is an entry of the caller. *)
Lemma select_only_owned (db : Db) (u : string) (row : EntryRow) :
  In row (select_entries u db) ->
  exists e, In e (Entry_tbl db) /\ user e = u /\ r_id row = id e.
Proof.
  unfold select_entries. intros H.
  eapply Permutation_in in H; [|apply order_by_desc_perm].
  unfold group_by in H. rewrite map_map in H. apply in_map_iff in H.
  destruct H as (a & <- & Ha).
  apply distinct_by_incl, filter_In in Ha. destruct Ha as [Ha Hu].
  exists (entry_of a). split; [now apply joined_entry|].
  split; [now apply String.eqb_eq | reflexivity].
Qed.

Lemma select_strictly_desc (db : Db) (u : string) :
  StronglySorted (strictly_desc r_id) (select_entries u db).
Proof.
  unfold select_entries. apply order_by_desc_strict.
  unfold group_by. rewrite !map_map. simpl.
  apply (distinct_by_NoDup (fun r : JoinedRow => id (entry_of r))).
Qed.

(** ** The aggregated competencies *)

Lemma attached_on_entryID (db : Db) (e : Entry) :
  attached (id e) db =
  map competencyID (filter (on_entryID e) (EntryCompetency_tbl db)).
Proof.
  unfold attached. f_equal. apply filter_ext. intros ec.
  unfold on_entryID. apply Z.eqb_sym.
Qed.

Lemma aggregate_tagged (db : Db) (e : Entry) (tags : list EntryCompetency) :
  JSON_ARRAYAGG
    (left_join on_competencyID (map (fun ec => (e, Some ec)) tags)
       (Competency_tbl db)) =
  flat_map (competency_refs db) (map competencyID tags).
Proof.
  unfold JSON_ARRAYAGG, left_join.
  set (agg := fun r : JoinedRow => option_map c_id (snd r)).
  set (join := fun a : Entry * option EntryCompetency => _).
  induction tags as [|ec tags IH]; [reflexivity|].
  cbn [map flat_map]. rewrite map_app, IH. f_equal.
  subst agg join. cbv beta.
  unfold competency_refs, on_competencyID. cbn [snd].
  destruct (filter _ (Competency_tbl db)) as [|k ks]; [reflexivity|].
  rewrite map_map. reflexivity.
Qed.

(** The aggregate of the joined rows of an entry is its annotation. *)
Lemma aggregate_rows_of (db : Db) (e : Entry) :
  JSON_ARRAYAGG (rows_of db e) = annotation db (id e).
Proof.
  unfold annotation. rewrite attached_on_entryID. unfold rows_of.
  assert (L : left_join on_entryID [e] (EntryCompetency_tbl db) =
              match filter (on_entryID e) (EntryCompetency_tbl db) with
              | [] => [(e, None)]
              | tags => map (fun ec => (e, Some ec)) tags
              end).
  { unfold left_join. cbn [flat_map]. apply app_nil_r. }
  rewrite L.
  destruct (filter (on_entryID e) (EntryCompetency_tbl db)) as [|ec tags].
  - unfold left_join. cbn [flat_map map].
    rewrite filter_none; [reflexivity | intros; reflexivity].
  - apply (aggregate_tagged db e (ec :: tags)).
Qed.

Lemma annotation_inhabited (db : Db) (n : Z) : annotation db n <> [].
Proof.
  unfold annotation. destruct (attached n db) as [|c ids]; [discriminate|].
  cbn [flat_map]. unfold competency_refs at 1.
  destruct (filter _ (Competency_tbl db)); discriminate.
Qed.

(** An id that the catalog holds once is referred to by itself. *)
Lemma competency_refs_known (db : Db) (c : Z) :
  NoDup (map c_id (Competency_tbl db)) ->
  In c (map c_id (Competency_tbl db)) ->
  competency_refs db c = [Some c].
Proof.
  unfold competency_refs.
  induction (Competency_tbl db) as [|k ks IH]; simpl; [tauto|].
  intros Hn Hc. inversion Hn as [|? ? Hk Hks]; subst.
  destruct (c =? c_id k) eqn:E.
  - apply Z.eqb_eq in E. subst c.
    rewrite filter_none; [reflexivity|].
    intros k' Hk'. apply Z.eqb_neq. intros E. apply Hk. rewrite E.
    now apply in_map.
  - apply Z.eqb_neq in E. destruct Hc as [Hc|Hc]; [congruence|]. auto.
Qed.

(** When every attached id is in the catalog and something is attached, the
    annotation is the attached list itself. *)
Lemma annotation_known (db : Db) (n : Z) :
  NoDup (map c_id (Competency_tbl db)) ->
  attached n db <> [] ->
  Forall (fun c => In c (map c_id (Competency_tbl db))) (attached n db) ->
  annotation db n = map Some (attached n db).
Proof.
  intros Hn Hne Hall. unfold annotation.
  destruct (attached n db) as [|c ids] eqn:E; [congruence|].
  clear E Hne. induction Hall as [|x l Hx Hl IH]; [reflexivity|].
  cbn [flat_map map]. rewrite IH, competency_refs_known by assumption.
  reflexivity.
Qed.

(** GET never shows an empty list of competencies. *)
Lemma select_competencies_inhabited (db : Db) (u : string) (row : EntryRow) :
  In row (select_entries u db) -> r_competencies row <> [].
Proof.
  unfold select_entries. intros H.
  eapply Permutation_in in H; [|apply order_by_desc_perm].
  unfold group_by in H. rewrite map_map in H. apply in_map_iff in H.
  destruct H as (a & <- & Ha). unfold aggregate, JSON_ARRAYAGG; simpl.
  apply distinct_by_incl in Ha.
  intros E. apply map_eq_nil in E.
  match type of E with ?l = [] => assert (Hin : In a l) end.
  { apply filter_In. split; [exact Ha | apply Z.eqb_refl]. }
  rewrite E in Hin. destruct Hin.
Qed.

(** ** Statements *)

Lemma count_found {A : Type} (p : A -> bool) (l : list A) (a : A) :
  In a l -> p a = true -> (count p l =? 0) = false.
Proof.
  intros Ha Hp. apply Z.eqb_neq. unfold count.
  assert (H : In a (filter p l)) by (apply filter_In; auto).
  destruct (filter p l); [destruct H | simpl; lia].
Qed.

Lemma count_none {A : Type} (p : A -> bool) (l : list A) :
  (forall a, In a l -> p a = false) -> count p l = 0.
Proof. intros H. unfold count. now rewrite filter_none. Qed.

Lemma where_id_user_true (n : Z) (u : string) (e : Entry) :
  where_id_user n u e = true <-> id e = n /\ user e = u.
Proof.
  unfold where_id_user. rewrite andb_true_iff, Z.eqb_eq, String.eqb_eq.
  tauto.
Qed.

Lemma where_id_user_false (n : Z) (u : string) (e : Entry) :
  where_id_user n u e = false <-> ~ (id e = n /\ user e = u).
Proof.
  rewrite <- where_id_user_true. destruct (where_id_user n u e); split;
    congruence.
Qed.

Lemma truthy_Some (s : string) : s <> EmptyString -> truthy (Some s) = true.
Proof.
  intros H. unfold truthy. apply negb_true_iff, String.eqb_neq, H.
Qed.

Lemma set_Entry_tbl_same (db : Db) : set_Entry_tbl db (Entry_tbl db) = db.
Proof. now destruct db. Qed.

Lemma update_nothing (t : string) (n : Z) (u : string) (l : list Entry) :
  (forall e, In e l -> where_id_user n u e = false) ->
  map (fun e => if where_id_user n u e
                then mkEntry (id e) (user e) t (createdAt e) else e) l = l.
Proof.
  intros H. induction l as [|e l IH]; simpl; [reflexivity|].
  rewrite H by now left. f_equal. apply IH. intros; apply H; now right.
Qed.

Lemma attached_replaced (n : Z) (db : Db) (ids : list Z) :
  attached n
    (set_EntryCompetency_tbl db
       (others n db ++ map (mkEntryCompetency n) ids)) = ids.
Proof.
  unfold attached, others; simpl. rewrite filter_app, map_app.
  rewrite filter_none, filter_all; simpl.
  - rewrite map_map. simpl. apply map_id.
  - intros ec H. apply in_map_iff in H. destruct H as (c & <- & _).
    apply Z.eqb_refl.
  - intros ec H. apply filter_In in H. destruct H as [_ H].
    now apply negb_true_iff in H.
Qed.

Lemma others_replaced (n : Z) (db : Db) (ids : list Z) :
  others n
    (set_EntryCompetency_tbl db
       (others n db ++ map (mkEntryCompetency n) ids)) = others n db.
Proof.
  unfold others; simpl. rewrite filter_app.
  rewrite (filter_none _ (map _ ids)), app_nil_r.
  - apply filter_all. intros ec H. apply filter_In in H. tauto.
  - intros ec H. apply in_map_iff in H. destruct H as (c & <- & _).
    simpl. now rewrite Z.eqb_refl.
Qed.

Section Handlers.

Variable int_of_string : string -> option Z.

(** The loop of inserts appends one row per id, in input order. *)
Lemma for_of_insert (e : Param) (n : Z) (ids : list Z) (db : Db) :
  as_int int_of_string e = Some n ->
  for_of ids (fun compID =>
                insert_EntryCompetency int_of_string e (PInt compID)) db =
  Ok tt (set_EntryCompetency_tbl db
           (EntryCompetency_tbl db ++ map (mkEntryCompetency n) ids)).
Proof.
  intros He. revert db.
  induction ids as [|c ids IH]; intros db; cbn [for_of map].
  - unfold ret. rewrite app_nil_r. now destruct db.
  - unfold bind at 1. unfold insert_EntryCompetency at 1.
    rewrite He. cbn [as_int]. rewrite IH.
    unfold set_EntryCompetency_tbl; cbn.
    now rewrite <- app_assoc.
Qed.

(** What PUT does once the caller, the path segment and the database's
    reading of it are known. *)
Lemma PUT_steps (session : option Session) (req : Request) (db : Db)
    (u s : string) (n : Z) :
  session_email session = Some u ->
  path_entryID req = Some s -> s <> EmptyString ->
  int_of_string s = Some n ->
  PUT int_of_string session req db =
  if count (where_id_user n u) (Entry_tbl db) =? 0 then
    (NextResponse_json
       (JError "Entry not found or not authorized to edit") (Some 404),
     set_Entry_tbl db
       (map (fun e => if where_id_user n u e
                      then mkEntry (id e) (user e) (b_text (json req))
                             (createdAt e)
                      else e) (Entry_tbl db)))
  else
    (NextResponse_json (JMessage "Entry updated successfully") None,
     mkDb (map (fun e => if where_id_user n u e
                         then mkEntry (id e) (user e) (b_text (json req))
                                (createdAt e)
                         else e) (Entry_tbl db))
          (others n db ++ map (mkEntryCompetency n) (competencyIDs (json req)))
          (Competency_tbl db) (auto_increment db)).
Proof.
  intros Hu Hs Hne Hn. unfold PUT, try_catch. rewrite Hu, Hs.
  rewrite truthy_Some by assumption. cbn [negb].
  unfold bind at 1. unfold update_Entry at 1. cbn [as_int]. rewrite Hn.
  cbn [affectedRows].
  destruct (count (where_id_user n u) (Entry_tbl db) =? 0); [reflexivity|].
  unfold bind at 1. unfold delete_EntryCompetency at 1. cbn [as_int].
  rewrite Hn. unfold bind. rewrite (for_of_insert _ n) by exact Hn.
  reflexivity.
Qed.

(** What DELETE does under the same knowledge. *)
Lemma DELETE_steps (session : option Session) (req : Request) (db : Db)
    (u s : string) (n : Z) :
  session_email session = Some u ->
  path_entryID req = Some s -> s <> EmptyString ->
  int_of_string s = Some n ->
  DELETE int_of_string session req db =
  (if count (where_id_user n u) (Entry_tbl db) =? 0 then
     NextResponse_json
       (JError "Entry not found or not authorized to delete") (Some 404)
   else NextResponse_json (JMessage "Entry deleted successfully") None,
   mkDb (filter (fun e => negb (where_id_user n u e)) (Entry_tbl db))
        (others n db) (Competency_tbl db) (auto_increment db)).
Proof.
  intros Hu Hs Hne Hn. unfold DELETE, try_catch. rewrite Hu, Hs.
  rewrite truthy_Some by assumption. cbn [negb].
  unfold bind, delete_EntryCompetency, delete_Entry. cbn [as_int].
  rewrite Hn. cbn.
  destruct (count (where_id_user n u) (Entry_tbl db) =? 0); reflexivity.
Qed.

(** A path segment the database refuses makes the first statement throw:
    the handler answers 500 and nothing is written. *)
Lemma PUT_DELETE_refused (session : option Session) (req : Request) (db : Db)
    (u s : string) :
  session_email session = Some u ->
  path_entryID req = Some s -> s <> EmptyString ->
  int_of_string s = None ->
  (status (fst (PUT int_of_string session req db)) = 500 /\
   snd (PUT int_of_string session req db) = db) /\
  (status (fst (DELETE int_of_string session req db)) = 500 /\
   snd (DELETE int_of_string session req db) = db).
Proof.
  intros Hu Hs Hne Hn. unfold PUT, DELETE, try_catch. rewrite Hu, Hs.
  rewrite truthy_Some by assumption. cbn [negb].
  unfold bind, update_Entry, delete_EntryCompetency. cbn [as_int].
  rewrite Hn. cbn. auto.
Qed.

(** A missing last segment is answered 400 before any statement runs. *)
Lemma PUT_DELETE_empty_segment (session : option Session) (req : Request)
    (db : Db) (u : string) :
  session_email session = Some u ->
  truthy (path_entryID req) = false ->
  PUT int_of_string session req db = (id_not_provided, db) /\
  DELETE int_of_string session req db = (id_not_provided, db).
Proof.
  intros Hu Hs. unfold PUT, DELETE, try_catch. now rewrite Hu, Hs.
Qed.

Lemma POST_steps (session : option Session) (req : Request)
    (db_now now : Timestamp) (db : Db) (u : string) :
  session_email session = Some u ->
  POST int_of_string session req db_now now db =
  (NextResponse_json
     (JCreated (auto_increment db) (b_text (json req)) now
        (competencyIDs (json req))) None,
   mkDb (Entry_tbl db ++
           [mkEntry (auto_increment db) u (b_text (json req)) db_now])
        (EntryCompetency_tbl db ++
           map (mkEntryCompetency (auto_increment db))
             (competencyIDs (json req)))
        (Competency_tbl db) (auto_increment db + 1)).
Proof.
  intros Hu. unfold POST, try_catch. rewrite Hu.
  unfold bind at 1. unfold insert_Entry at 1. cbn [insertId].
  unfold bind.
  rewrite (for_of_insert _ (auto_increment db)) by reflexivity.
  reflexivity.
Qed.

(** ** The primary key is kept *)

Lemma wf_empty (catalog : list Competency) (n : Z) : wf (mkDb [] [] catalog n).
Proof. split; constructor. Qed.

Lemma wf_POST (session : option Session) (req : Request)
    (db_now now : Timestamp) (db : Db) :
  wf db -> wf (snd (POST int_of_string session req db_now now db)).
Proof.
  intros [Hn Hlt].
  destruct (session_email session) as [u|] eqn:Hu.
  - rewrite (POST_steps _ _ _ _ _ u Hu). split; cbn.
    + rewrite map_app. cbn.
      apply NoDup_app; [exact Hn | repeat constructor; intros [] |].
      intros x Hx [<-|[]]. apply in_map_iff in Hx.
      destruct Hx as (e & He & Hin).
      rewrite Forall_forall in Hlt. specialize (Hlt e Hin). lia.
    + apply Forall_app. split.
      * eapply Forall_impl; [|exact Hlt]. cbn. intros; lia.
      * repeat constructor. cbn. lia.
  - unfold POST, try_catch. rewrite Hu. cbn. now split.
Qed.

Lemma NoDup_map_filter {A : Type} (f : A -> Z) (p : A -> bool) (l : list A) :
  NoDup (map f l) -> NoDup (map f (filter p l)).
Proof.
  induction l as [|a l IH]; simpl; intros H; [constructor|].
  inversion H as [|? ? Ha Hl]; subst.
  destruct (p a); simpl; auto.
  constructor; auto.
  rewrite in_map_iff in *. intros (b & Hb & Hin).
  apply filter_In in Hin. apply Ha. exists b. tauto.
Qed.

Lemma wf_DELETE (session : option Session) (req : Request) (db : Db) :
  wf db -> wf (snd (DELETE int_of_string session req db)).
Proof.
  intros [Hn Hlt].
  destruct (session_email session) as [u|] eqn:Hu;
    [|unfold DELETE, try_catch; rewrite Hu; now split].
  destruct (truthy (path_entryID req)) eqn:Ht;
    [|destruct (PUT_DELETE_empty_segment session req db u Hu Ht) as [_ ->];
      now split].
  destruct (path_entryID req) as [s|] eqn:Hs; [|discriminate].
  assert (Hne : s <> EmptyString).
  { intros ->. discriminate. }
  destruct (int_of_string s) as [n|] eqn:Hi.
  - rewrite (DELETE_steps _ _ _ u s n) by assumption. split; cbn.
    + now apply NoDup_map_filter.
    + apply Forall_forall. intros e He. apply filter_In in He.
      rewrite Forall_forall in Hlt. apply Hlt. tauto.
  - destruct (PUT_DELETE_refused session req db u s Hu Hs Hne Hi)
      as [_ [_ ->]]. now split.
Qed.

Lemma wf_PUT (session : option Session) (req : Request) (db : Db) :
  wf db -> wf (snd (PUT int_of_string session req db)).
Proof.
  intros [Hn Hlt].
  destruct (session_email session) as [u|] eqn:Hu;
    [|unfold PUT, try_catch; rewrite Hu; now split].
  destruct (truthy (path_entryID req)) eqn:Ht;
    [|destruct (PUT_DELETE_empty_segment session req db u Hu Ht) as [-> _];
      now split].
  destruct (path_entryID req) as [s|] eqn:Hs; [|discriminate].
  assert (Hne : s <> EmptyString).
  { intros ->. discriminate. }
  destruct (int_of_string s) as [n|] eqn:Hi.
  - rewrite (PUT_steps _ _ _ u s n) by assumption.
    assert (Hid : forall t, map id
               (map (fun e => if where_id_user n u e
                              then mkEntry (id e) (user e) t (createdAt e)
                              else e) (Entry_tbl db)) = map id (Entry_tbl db)).
    { intros t. rewrite map_map. apply map_ext. intros e.
      now destruct (where_id_user n u e). }
    destruct (count (where_id_user n u) (Entry_tbl db) =? 0); split; cbn;
      rewrite ?Hid; auto;
      apply Forall_forall; intros e He; apply in_map_iff in He;
      destruct He as (e' & <- & He'); rewrite Forall_forall in Hlt;
      specialize (Hlt e' He'); now destruct (where_id_user n u e').
  - destruct (PUT_DELETE_refused session req db u s Hu Hs Hne Hi)
      as [[_ ->] _]. now split.
Qed.

End Handlers.

(** * The service *)

Lemma attached_others (n : Z) (db : Db) (t : list Entry) (k : Z) :
  attached n (mkDb t (others n db) (Competency_tbl db) k) = [].
Proof.
  unfold attached, others; cbn. rewrite filter_none; [reflexivity|].
  intros ec H. apply filter_In in H. destruct H as [_ H].
  now apply negb_true_iff in H.
Qed.

(** An entry that another user owns is not found by [id = ? AND user = ?]. *)
Lemma foreign_not_found (db : Db) (e : Entry) (u : string) :
  NoDup (map id (Entry_tbl db)) -> In e (Entry_tbl db) -> user e <> u ->
  forall e', In e' (Entry_tbl db) -> where_id_user (id e) u e' = false.
Proof.
  intros Hn He Hu e' He'. apply where_id_user_false. intros [Hid Hu'].
  apply Hu. rewrite <- Hu'. f_equal.
  apply (NoDup_id_inj (Entry_tbl db)); auto.
Qed.

(** GET lists every entry of the caller with its annotation. *)
Lemma GET_lists_owned (session : option Session) (db : Db) (e : Entry) :
  NoDup (map id (Entry_tbl db)) -> In e (Entry_tbl db) ->
  session_email session = Some (user e) ->
  In (mkRow (id e) (text e) (createdAt e) (annotation db (id e)))
     (entries_of (GET session db)).
Proof.
  intros Hn He Hu. unfold GET. rewrite Hu. cbn.
  rewrite <- aggregate_rows_of. now apply select_lists_entry.
Qed.

(** For an entry with at least one tag, all of them in the catalog, GET
    shows the attached ids themselves, in storage order. *)
Lemma GET_tagged_entry (session : option Session) (db : Db) (e : Entry) :
  NoDup (map id (Entry_tbl db)) -> In e (Entry_tbl db) ->
  session_email session = Some (user e) ->
  NoDup (map c_id (Competency_tbl db)) ->
  attached (id e) db <> [] ->
  Forall (fun c => In c (map c_id (Competency_tbl db))) (attached (id e) db) ->
  In (mkRow (id e) (text e) (createdAt e) (map Some (attached (id e) db)))
     (entries_of (GET session db)).
Proof.
  intros Hn He Hu Hc Hne Hall.
  rewrite <- annotation_known by assumption. now apply GET_lists_owned.
Qed.

Section Claims.

Variable int_of_string : string -> option Z.

(** C1. An authenticated PUT on an entry the caller owns answers 200 and
    replaces the entry's tags: afterwards the EntryCompetency table is the
    rows of the other entries followed by one row per supplied id, in input
    order, so the ids attached to the entry are exactly the supplied
    sequence, whatever was attached before. *)
Theorem PUT_replaces_tags (session : option Session) (req : Request)
    (db : Db) (u s : string) (n : Z) (e : Entry) :
  session_email session = Some u ->
  path_entryID req = Some s -> s <> EmptyString ->
  int_of_string s = Some n ->
  In e (Entry_tbl db) -> id e = n -> user e = u ->
  status (fst (PUT int_of_string session req db)) = 200 /\
  EntryCompetency_tbl (snd (PUT int_of_string session req db)) =
    others n db ++ map (mkEntryCompetency n) (competencyIDs (json req)) /\
  attached n (snd (PUT int_of_string session req db)) =
    competencyIDs (json req) /\
  others n (snd (PUT int_of_string session req db)) = others n db.
Proof.
  intros Hu Hs Hne Hn He Hid Hown.
  rewrite (PUT_steps _ _ _ _ u s n) by assumption.
  rewrite (count_found _ _ e) by (auto; now apply where_id_user_true).
  cbn [fst snd]. repeat split.
  - apply (attached_replaced n
             (mkDb _ (EntryCompetency_tbl db) (Competency_tbl db)
                (auto_increment db))).
  - apply (others_replaced n
             (mkDb _ (EntryCompetency_tbl db) (Competency_tbl db)
                (auto_increment db))).
Qed.

(** C2. GET shows an entry of the caller that has no tag rows with the
    competencies [[null]], the aggregate of the single NULL row the LEFT JOINs
    leave for it, and no row GET returns has an empty list of
    competencies. *)
Theorem GET_untagged_entry_null (session : option Session) (db : Db)
    (e : Entry) :
  NoDup (map id (Entry_tbl db)) ->
  In e (Entry_tbl db) ->
  session_email session = Some (user e) ->
  attached (id e) db = [] ->
  In (mkRow (id e) (text e) (createdAt e) [None])
     (entries_of (GET session db)) /\
  forall row, In row (entries_of (GET session db)) ->
              r_competencies row <> [].
Proof.
  intros Hn He Hu Hnone. unfold GET. rewrite Hu. cbn. split.
  - pose proof (select_lists_entry db e Hn He) as H.
    rewrite aggregate_rows_of in H. unfold annotation in H.
    now rewrite Hnone in H.
  - intros row. apply select_competencies_inhabited.
Qed.

(** C3. An authenticated PUT whose path segment the database reads as an id
    under which the caller owns no entry answers 404 and leaves the database
    as it was. *)
Theorem PUT_not_owned_404 (session : option Session) (req : Request)
    (db : Db) (u s : string) (n : Z) :
  session_email session = Some u ->
  path_entryID req = Some s -> s <> EmptyString ->
  int_of_string s = Some n ->
  (forall e, In e (Entry_tbl db) -> ~ (id e = n /\ user e = u)) ->
  status (fst (PUT int_of_string session req db)) = 404 /\
  snd (PUT int_of_string session req db) = db.
Proof.
  intros Hu Hs Hne Hn Hnone.
  assert (Hf : forall e, In e (Entry_tbl db) -> where_id_user n u e = false).
  { intros e He. apply where_id_user_false. auto. }
  rewrite (PUT_steps _ _ _ _ u s n) by assumption.
  rewrite count_none by exact Hf. cbn [Z.eqb fst snd]. split; [reflexivity|].
  rewrite update_nothing by exact Hf. apply set_Entry_tbl_same.
Qed.

(** C4. An authenticated DELETE on the id of an entry that another user owns
    answers 404, leaves the Entry table as it was, and deletes every tag row
    of that entry: nothing is attached to it afterwards, and when something
    was attached before, the database has changed. *)
Theorem DELETE_foreign_strips_tags (session : option Session) (req : Request)
    (db : Db) (u s : string) (e : Entry) :
  NoDup (map id (Entry_tbl db)) ->
  session_email session = Some u ->
  path_entryID req = Some s -> s <> EmptyString ->
  int_of_string s = Some (id e) ->
  In e (Entry_tbl db) -> user e <> u ->
  status (fst (DELETE int_of_string session req db)) = 404 /\
  Entry_tbl (snd (DELETE int_of_string session req db)) = Entry_tbl db /\
  EntryCompetency_tbl (snd (DELETE int_of_string session req db)) =
    others (id e) db /\
  attached (id e) (snd (DELETE int_of_string session req db)) = [] /\
  (attached (id e) db <> [] ->
   snd (DELETE int_of_string session req db) <> db).
Proof.
  intros Hnd Hu Hs Hne Hn He Hown.
  pose proof (foreign_not_found db e u Hnd He Hown) as Hf.
  rewrite (DELETE_steps _ _ _ _ u s (id e)) by assumption.
  rewrite count_none by exact Hf. cbn [Z.eqb fst snd Entry_tbl
    EntryCompetency_tbl].
  assert (Ha : attached (id e)
                 (mkDb (filter (fun e' => negb (where_id_user (id e) u e'))
                          (Entry_tbl db))
                    (others (id e) db) (Competency_tbl db)
                    (auto_increment db)) = []) by apply attached_others.
  repeat split.
  - apply filter_all. intros e' He'. now rewrite Hf.
  - exact Ha.
  - intros Hsome Heq. rewrite Heq in Ha. contradiction.
Qed.

(** C5. An authenticated DELETE on the id of an entry that another user owns
    answers 404 and keeps the entry row: the owner's next GET lists it with
    its id, text and creation time. *)
Theorem DELETE_foreign_keeps_entry (session owner : option Session)
    (req : Request) (db : Db) (u s : string) (e : Entry) :
  NoDup (map id (Entry_tbl db)) ->
  session_email session = Some u ->
  path_entryID req = Some s -> s <> EmptyString ->
  int_of_string s = Some (id e) ->
  In e (Entry_tbl db) -> user e <> u ->
  session_email owner = Some (user e) ->
  status (fst (DELETE int_of_string session req db)) = 404 /\
  In e (Entry_tbl (snd (DELETE int_of_string session req db))) /\
  exists row,
    In row (entries_of
              (GET owner (snd (DELETE int_of_string session req db)))) /\
    r_id row = id e /\ r_text row = text e /\ r_createdAt row = createdAt e.
Proof.
  intros Hnd Hu Hs Hne Hn He Hown Howner.
  pose proof (foreign_not_found db e u Hnd He Hown) as Hf.
  rewrite (DELETE_steps _ _ _ _ u s (id e)) by assumption.
  rewrite count_none by exact Hf. cbn [Z.eqb fst snd].
  rewrite (filter_all _ (Entry_tbl db))
    by (intros e' He'; now rewrite Hf).
  repeat split; [exact He|].
  unfold GET. rewrite Howner. cbn [entries_of body NextResponse_json].
  eexists. split; [apply select_lists_entry; cbn; assumption|].
  cbn. auto.
Qed.

(** C6. Without an authenticated identity GET answers 200 with an empty
    array, while POST, PUT and DELETE answer 401; none of them touches the
    database. *)
Theorem unauthenticated_GET_200_others_401 (session : option Session)
    (req : Request) (db_now now : Timestamp) (db : Db) :
  session_email session = None ->
  GET session db = mkResponse (JEntries []) 200 /\
  (status (fst (POST int_of_string session req db_now now db)) = 401 /\
   snd (POST int_of_string session req db_now now db) = db) /\
  (status (fst (PUT int_of_string session req db)) = 401 /\
   snd (PUT int_of_string session req db) = db) /\
  (status (fst (DELETE int_of_string session req db)) = 401 /\
   snd (DELETE int_of_string session req db) = db).
Proof.
  intros Hu. unfold GET, POST, PUT, DELETE, try_catch. rewrite Hu.
  cbn. auto 10.
Qed.

(** C7. The handlers take the last path segment as the entry id whatever it
    is: an authenticated DELETE or PUT whose path ends in a non-empty segment
    is never answered 400.  On the path [/api/entry], which carries no entry
    id, the segment is [entry] and the MissingID answer is not given. *)
Theorem last_segment_taken_as_id (session : option Session) (req : Request)
    (db : Db) (u s : string) :
  session_email session = Some u ->
  path_entryID req = Some s -> s <> EmptyString ->
  status (fst (DELETE int_of_string session req db)) <> 400 /\
  status (fst (PUT int_of_string session req db)) <> 400.
Proof.
  intros Hu Hs Hne.
  destruct (int_of_string s) as [n|] eqn:Hn.
  - rewrite (DELETE_steps _ _ _ _ u s n), (PUT_steps _ _ _ _ u s n)
      by assumption.
    destruct (count (where_id_user n u) (Entry_tbl db) =? 0); cbn;
      split; discriminate.
  - destruct (PUT_DELETE_refused int_of_string session req db u s
                Hu Hs Hne Hn) as [[-> _] [-> _]].
    split; discriminate.
Qed.

(** C8. An authenticated POST appends one Entry row owned by the caller,
    with the AUTO_INCREMENT value as id and the database's time as
    createdAt, then one EntryCompetency row per supplied id in input order,
    and answers 200 with that id, the text, the time [now] at which the
    response is built, and the supplied ids.  The caller's next GET lists
    the entry under the returned id, with the stored creation time. *)
Theorem POST_creates_entry (session : option Session) (req : Request)
    (db_now now : Timestamp) (db : Db) (u : string) :
  wf db ->
  session_email session = Some u ->
  fst (POST int_of_string session req db_now now db) =
    mkResponse
      (JCreated (auto_increment db) (b_text (json req)) now
         (competencyIDs (json req))) 200 /\
  Entry_tbl (snd (POST int_of_string session req db_now now db)) =
    Entry_tbl db ++
      [mkEntry (auto_increment db) u (b_text (json req)) db_now] /\
  EntryCompetency_tbl (snd (POST int_of_string session req db_now now db)) =
    EntryCompetency_tbl db ++
      map (mkEntryCompetency (auto_increment db)) (competencyIDs (json req)) /\
  exists row,
    In row (entries_of
              (GET session
                 (snd (POST int_of_string session req db_now now db)))) /\
    r_id row = auto_increment db /\ r_text row = b_text (json req) /\
    r_createdAt row = db_now.
Proof.
  intros Hwf Hu.
  pose proof (wf_POST int_of_string session req db_now now db Hwf) as [Hnd _].
  revert Hnd. rewrite (POST_steps _ _ _ _ _ _ u Hu). cbn [fst snd Entry_tbl
    EntryCompetency_tbl]. intros Hnd.
  repeat split.
  unfold GET. rewrite Hu. cbn [entries_of body NextResponse_json].
  set (e := mkEntry (auto_increment db) u (b_text (json req)) db_now).
  eexists. split.
  - apply (select_lists_entry _ e); cbn; [exact Hnd|].
    apply in_or_app. right. now left.
  - cbn. auto.
Qed.

(** C9. The entries GET returns are in strictly descending order of id:
    every entry has a greater id than all the entries after it. *)
Theorem GET_strictly_descending (session : option Session) (db : Db) :
  StronglySorted (strictly_desc r_id) (entries_of (GET session db)).
Proof.
  unfold GET. destruct (session_email session) as [u|]; cbn.
  - apply select_strictly_desc.
  - constructor.
Qed.

(** C10. The same authenticated DELETE issued twice on an entry the caller
    owns answers 200 the first time and 404 the second time. *)
Theorem DELETE_twice_200_then_404 (session : option Session) (req : Request)
    (db : Db) (u s : string) (e : Entry) :
  session_email session = Some u ->
  path_entryID req = Some s -> s <> EmptyString ->
  int_of_string s = Some (id e) ->
  In e (Entry_tbl db) -> user e = u ->
  status (fst (DELETE int_of_string session req db)) = 200 /\
  status (fst (DELETE int_of_string session req
                 (snd (DELETE int_of_string session req db)))) = 404.
Proof.
  intros Hu Hs Hne Hn He Hown.
  rewrite !(DELETE_steps _ _ _ _ u s (id e)) by assumption.
  cbn [fst snd Entry_tbl].
  rewrite (count_found _ _ e) by (auto; now apply where_id_user_true).
  rewrite count_none; [now split|].
  intros e' He'. apply filter_In in He'. destruct He' as [_ He'].
  now apply negb_true_iff in He'.
Qed.

End Claims.

(** * The service on the sample data *)

(** The example of the specification: create with [[1; 3]], then PUT [[2]];
    GET then shows [[2]]. *)
Example create_then_replace :
  let db1 := snd (POST decimal_id ann on_collection 3000 3001 sample) in
  let db2 := snd (PUT decimal_id ann
                    (mkRequest "/api/entry/3" (mkBody "third" [2])) db1) in
  entries_of (GET ann db1) =
    [mkRow 3 "third" 3000 [Some 1; Some 3];
     mkRow 1 "first" 1000 [Some 1; Some 3]] /\
  entries_of (GET ann db2) =
    [mkRow 3 "third" 3000 [Some 2];
     mkRow 1 "first" 1000 [Some 1; Some 3]].
Proof. vm_compute. split; reflexivity. Qed.

(** Bob's entry has no tags and GET shows it with [[null]]. *)
Example GET_bob :
  GET bob sample = mkResponse (JEntries [mkRow 2 "second" 2000 [None]]) 200.
Proof. reflexivity. Qed.

(** A tag on a competency the catalog does not hold is shown as [null]. *)
Example GET_dangling :
  entries_of
    (GET bob
       (snd (PUT decimal_id bob
               (mkRequest "/api/entry/2" (mkBody "second" [2; 99])) sample))) =
  [mkRow 2 "second" 2000 [Some 2; None]].
Proof. reflexivity. Qed.

(** DELETE and PUT on the collection path take [entry] as the id: under the
    strict reading the statement is refused (500), under the lenient one no
    entry has id 0 (404).  With a trailing slash the answer is 400. *)
Example collection_path_strict :
  status (fst (DELETE decimal_id ann on_collection sample)) = 500 /\
  status (fst (PUT decimal_id ann on_collection sample)) = 500.
Proof. split; reflexivity. Qed.

Example collection_path_lenient :
  status (fst (DELETE lenient_id ann on_collection sample)) = 404 /\
  status (fst (PUT lenient_id ann on_collection sample)) = 404.
Proof. split; reflexivity. Qed.

Example trailing_slash :
  status (fst (DELETE decimal_id ann on_slash sample)) = 400 /\
  status (fst (PUT decimal_id ann on_slash sample)) = 400.
Proof. split; reflexivity. Qed.

Lemma sample_wf : wf sample.
Proof.
  split.
  - repeat constructor; cbn; intuition discriminate.
  - repeat constructor; cbn; lia.
Qed.

Lemma sample_NoDup : NoDup (map id (Entry_tbl sample)).
Proof. apply sample_wf. Qed.

(** ** The properties at the sample data *)

(** Ann replaces the tags 1 and 3 of her entry 1 by the single tag 2. *)
Lemma PUT_replaces_tags_witness :
  status (fst (PUT decimal_id ann on_entry1 sample)) = 200 /\
  EntryCompetency_tbl (snd (PUT decimal_id ann on_entry1 sample)) =
    others 1 sample ++ map (mkEntryCompetency 1) [2] /\
  attached 1 (snd (PUT decimal_id ann on_entry1 sample)) = [2] /\
  others 1 (snd (PUT decimal_id ann on_entry1 sample)) = others 1 sample.
Proof.
  apply (PUT_replaces_tags decimal_id ann on_entry1 sample
           "ann@school.org" "1" 1 entry1);
    try reflexivity; [discriminate | simpl; auto].
Defined.

(** Bob's untagged entry 2. *)
Lemma GET_untagged_entry_null_witness :
  In (mkRow 2 "second" 2000 [None]) (entries_of (GET bob sample)) /\
  forall row, In row (entries_of (GET bob sample)) ->
              r_competencies row <> [].
Proof.
  apply (GET_untagged_entry_null bob sample entry2);
    [apply sample_NoDup | simpl; auto | reflexivity | reflexivity].
Defined.

(** Ann's PUT on entry 7, which does not exist. *)
Lemma PUT_not_owned_404_witness :
  status (fst (PUT decimal_id ann on_entry7 sample)) = 404 /\
  snd (PUT decimal_id ann on_entry7 sample) = sample.
Proof.
  apply (PUT_not_owned_404 decimal_id ann on_entry7 sample
           "ann@school.org" "7" 7);
    try reflexivity; [discriminate|].
  intros e [<-|[<-|[]]] [H _]; discriminate H.
Defined.

(** Bob's DELETE on Ann's entry 1. *)
Lemma DELETE_foreign_strips_tags_witness :
  status (fst (DELETE decimal_id bob on_entry1 sample)) = 404 /\
  Entry_tbl (snd (DELETE decimal_id bob on_entry1 sample)) =
    Entry_tbl sample /\
  EntryCompetency_tbl (snd (DELETE decimal_id bob on_entry1 sample)) =
    others 1 sample /\
  attached 1 (snd (DELETE decimal_id bob on_entry1 sample)) = [] /\
  (attached 1 sample <> [] ->
   snd (DELETE decimal_id bob on_entry1 sample) <> sample).
Proof.
  apply (DELETE_foreign_strips_tags decimal_id bob on_entry1 sample
           "bob@school.org" "1" entry1);
    try reflexivity;
    [apply sample_NoDup | discriminate | simpl; auto | discriminate].
Defined.

Lemma DELETE_foreign_keeps_entry_witness :
  status (fst (DELETE decimal_id bob on_entry1 sample)) = 404 /\
  In entry1 (Entry_tbl (snd (DELETE decimal_id bob on_entry1 sample))) /\
  exists row,
    In row (entries_of
              (GET ann (snd (DELETE decimal_id bob on_entry1 sample)))) /\
    r_id row = 1 /\ r_text row = "first" /\ r_createdAt row = 1000.
Proof.
  apply (DELETE_foreign_keeps_entry decimal_id bob ann on_entry1 sample
           "bob@school.org" "1" entry1);
    try reflexivity;
    [apply sample_NoDup | discriminate | simpl; auto | discriminate].
Defined.

(** No session at all. *)
Lemma unauthenticated_GET_200_others_401_witness :
  GET None sample = mkResponse (JEntries []) 200 /\
  (status (fst (POST decimal_id None on_entry1 3000 3001 sample)) = 401 /\
   snd (POST decimal_id None on_entry1 3000 3001 sample) = sample) /\
  (status (fst (PUT decimal_id None on_entry1 sample)) = 401 /\
   snd (PUT decimal_id None on_entry1 sample) = sample) /\
  (status (fst (DELETE decimal_id None on_entry1 sample)) = 401 /\
   snd (DELETE decimal_id None on_entry1 sample) = sample).
Proof.
  apply (unauthenticated_GET_200_others_401 decimal_id None on_entry1
           3000 3001 sample).
  reflexivity.
Defined.

(** Ann's DELETE and PUT on the collection path. *)
Lemma last_segment_taken_as_id_witness :
  status (fst (DELETE decimal_id ann on_collection sample)) <> 400 /\
  status (fst (PUT decimal_id ann on_collection sample)) <> 400.
Proof.
  apply (last_segment_taken_as_id decimal_id ann on_collection sample
           "ann@school.org" "entry");
    [reflexivity | reflexivity | discriminate].
Defined.

(** Ann's POST of a third entry. *)
Lemma POST_creates_entry_witness :
  fst (POST decimal_id ann on_collection 3000 3001 sample) =
    mkResponse (JCreated 3 "third" 3001 [1; 3]) 200 /\
  Entry_tbl (snd (POST decimal_id ann on_collection 3000 3001 sample)) =
    Entry_tbl sample ++ [mkEntry 3 "ann@school.org" "third" 3000] /\
  EntryCompetency_tbl
    (snd (POST decimal_id ann on_collection 3000 3001 sample)) =
    EntryCompetency_tbl sample ++ map (mkEntryCompetency 3) [1; 3] /\
  exists row,
    In row (entries_of
              (GET ann
                 (snd (POST decimal_id ann on_collection 3000 3001 sample)))) /\
    r_id row = 3 /\ r_text row = "third" /\ r_createdAt row = 3000.
Proof.
  apply (POST_creates_entry decimal_id ann on_collection 3000 3001 sample
           "ann@school.org"); [apply sample_wf | reflexivity].
Defined.

(** Ann deletes her entry 1 twice. *)
Lemma DELETE_twice_200_then_404_witness :
  status (fst (DELETE decimal_id ann on_entry1 sample)) = 200 /\
  status (fst (DELETE decimal_id ann on_entry1
                 (snd (DELETE decimal_id ann on_entry1 sample)))) = 404.
Proof.
  apply (DELETE_twice_200_then_404 decimal_id ann on_entry1 sample
           "ann@school.org" "1" entry1);
    try reflexivity; [discriminate | simpl; auto].
Defined.

(** * Further properties of the service *)

(** ** The result of GET under the primary key *)

Lemma filter_idem {A : Type} (p : A -> bool) (l : list A) :
  filter p (filter p l) = filter p l.
Proof. apply filter_all. intros a H. apply filter_In in H. tauto. Qed.

(** Rows of a key already seen do not change which later rows are first. *)
Lemma distinct_by_skip {A : Type} (key : A -> Z) (k : Z) (xs rest : list A) :
  (forall x, In x xs -> key x = k) ->
  filter (fun b => negb (key b =? k)) (distinct_by key (xs ++ rest)) =
  filter (fun b => negb (key b =? k)) (distinct_by key rest).
Proof.
  intros Hk. induction xs as [|x xs IH]; [reflexivity|].
  cbn [app distinct_by filter].
  rewrite (Hk x) by now left. rewrite Z.eqb_refl. cbn [negb].
  rewrite filter_idem. apply IH. intros; apply Hk; now right.
Qed.

Lemma rows_of_flat_entry (db : Db) (l : list Entry) (r : JoinedRow) :
  In r (flat_map (rows_of db) l) -> In (entry_of r) l.
Proof.
  rewrite in_flat_map. intros (e & He & Hr).
  now rewrite (rows_of_entry _ _ _ Hr).
Qed.

(** With distinct ids, the first rows of the groups are one per entry, in the
    order of the entries. *)
Lemma distinct_rows_entries (db : Db) (l : list Entry) :
  NoDup (map id l) ->
  map entry_of
    (distinct_by (fun r => id (entry_of r)) (flat_map (rows_of db) l)) = l.
Proof.
  induction l as [|e l IH]; [reflexivity|].
  intros Hn. inversion Hn as [|? ? He Hl]; subst.
  cbn [flat_map]. destruct (rows_of db e) as [|r rs] eqn:E.
  { destruct (rows_of_inhabited db e) as (r & Hr). rewrite E in Hr.
    destruct Hr. }
  assert (Hall : forall x, In x (r :: rs) -> entry_of x = e).
  { intros x Hx. apply (rows_of_entry db). now rewrite E. }
  cbn [app distinct_by map]. rewrite (Hall r) by now left. f_equal.
  rewrite (distinct_by_skip (fun r => id (entry_of r)) (id e) rs).
  - rewrite filter_all; [now apply IH|].
    intros x Hx. apply distinct_by_incl, rows_of_flat_entry in Hx.
    apply negb_true_iff, Z.eqb_neq. intros Heq. apply He.
    rewrite <- Heq. now apply in_map.
  - intros x Hx. f_equal. apply Hall. now right.
Qed.

Lemma group_rows_of (db : Db) (l : list Entry) (e : Entry) :
  NoDup (map id l) -> In e l ->
  filter (fun r => id (entry_of r) =? id e) (flat_map (rows_of db) l) =
  rows_of db e.
Proof.
  induction l as [|x l IH]; cbn [flat_map map In]; [tauto|].
  intros Hn He. inversion Hn as [|? ? Hx Hl]; subst.
  rewrite filter_app. destruct He as [->|He].
  - rewrite (filter_all _ (rows_of db e)).
    + rewrite filter_none; [apply app_nil_r|].
      intros r Hr. apply rows_of_flat_entry in Hr.
      apply Z.eqb_neq. intros E. apply Hx. rewrite <- E. now apply in_map.
    + intros r Hr. rewrite (rows_of_entry _ _ _ Hr). apply Z.eqb_refl.
  - rewrite IH by assumption. rewrite filter_none; [reflexivity|].
    intros r Hr. rewrite (rows_of_entry _ _ _ Hr). apply Z.eqb_neq.
    intros E. apply Hx. rewrite E. now apply in_map.
Qed.

Lemma owned_rows (db : Db) (u : string) (l : list Entry) :
  filter (fun r => (user (entry_of r) =? u)%string) (flat_map (rows_of db) l) =
  flat_map (rows_of db) (filter (owned_by u) l).
Proof.
  induction l as [|e l IH]; [reflexivity|].
  cbn [flat_map filter]. rewrite filter_app, IH. unfold owned_by at 2.
  destruct (user e =? u)%string eqn:E.
  - cbn [flat_map]. f_equal. apply filter_all.
    intros r Hr. now rewrite (rows_of_entry _ _ _ Hr).
  - rewrite filter_none; [reflexivity|].
    intros r Hr. now rewrite (rows_of_entry _ _ _ Hr).
Qed.

(** Under the primary key GET's SELECT is: the entries of the caller, each
    as its row, ordered by descending id. *)
Lemma select_entries_pk (db : Db) (u : string) :
  NoDup (map id (Entry_tbl db)) ->
  select_entries u db =
  order_by_desc r_id
    (map (entry_row db) (filter (owned_by u) (Entry_tbl db))).
Proof.
  intros Hn. unfold select_entries. f_equal.
  rewrite joined_flat_map, owned_rows.
  set (l := filter (owned_by u) (Entry_tbl db)).
  assert (Hl : NoDup (map id l)) by now apply NoDup_map_filter.
  unfold group_by. rewrite map_map.
  rewrite <- (distinct_rows_entries db l Hl) at 2. rewrite map_map.
  apply map_ext_in. intros a Ha.
  apply distinct_by_incl in Ha.
  pose proof (rows_of_flat_entry _ _ _ Ha) as Hin.
  unfold aggregate, entry_row. cbn [fst snd]. f_equal.
  rewrite group_rows_of by assumption. apply aggregate_rows_of.
Qed.

(** ** ORDER BY under filters, maps and a new greatest key *)

Section Ordering.

Context {A : Type}.
Variable key : A -> Z.

Lemma insert_desc_first (a : A) (l : list A) :
  Forall (fun b => key b < key a) l -> insert_desc key a l = a :: l.
Proof.
  destruct 1 as [|b l Hb _]; [reflexivity|]. simpl.
  now apply Z.ltb_lt in Hb as ->.
Qed.

Lemma insert_desc_filter (p : A -> bool) (a : A) (l : list A) :
  StronglySorted (desc key) l ->
  filter p (insert_desc key a l) =
  if p a then insert_desc key a (filter p l) else filter p l.
Proof.
  induction 1 as [|b l Hs IH Hb]; simpl.
  - now destruct (p a).
  - destruct (key b <? key a) eqn:E; simpl.
    + apply Z.ltb_lt in E.
      destruct (p a) eqn:Pa; [|reflexivity].
      destruct (p b) eqn:Pb; simpl.
      * apply Z.ltb_lt in E. now rewrite E.
      * symmetry. apply insert_desc_first.
        apply Forall_forall. intros x Hx. apply filter_In in Hx.
        rewrite Forall_forall in Hb. specialize (Hb x (proj1 Hx)).
        unfold desc in Hb. lia.
    + rewrite IH. destruct (p b) eqn:Pb, (p a) eqn:Pa; simpl;
        rewrite ?E; reflexivity.
Qed.

Lemma order_by_desc_filter (p : A -> bool) (l : list A) :
  filter p (order_by_desc key l) = order_by_desc key (filter p l).
Proof.
  induction l as [|a l IH]; [reflexivity|]. simpl.
  rewrite insert_desc_filter by apply order_by_desc_sorted.
  rewrite IH. now destruct (p a).
Qed.


Context {B : Type}.
Variable key' : B -> Z.
Variable f : A -> B.
Hypothesis key_f : forall a, key' (f a) = key a.



End Ordering.

(** ** What GET returns *)

Lemma select_lists_id (db : Db) (e : Entry) :
  In e (Entry_tbl db) ->
  In (id e) (map r_id (select_entries (user e) db)).
Proof.
  intros He. unfold select_entries.
  eapply Permutation_in;
    [apply Permutation_map; symmetry; apply order_by_desc_perm|].
  destruct (rows_of_inhabited db e) as (r & Hr).
  pose proof (rows_of_entry _ _ _ Hr) as Hre.
  set (rows := filter _ (joined db)).
  assert (Hrows : In r rows).
  { apply filter_In. split.
    - rewrite joined_flat_map. apply in_flat_map. eauto.
    - rewrite Hre. apply String.eqb_refl. }
  destruct (distinct_by_covers (fun r => id (entry_of r)) rows r Hrows)
    as (a & Ha & Hk).
  unfold group_by. rewrite !map_map. apply in_map_iff.
  exists a. split; [|exact Ha]. cbn. now rewrite Hk, Hre.
Qed.

(** X1. The ids GET returns are exactly the ids of the entries whose owner
    is the caller: no entry of the caller is left out and no entry of
    another user is shown. *)
Theorem GET_ids_are_the_callers (session : option Session) (db : Db)
    (u : string) (n : Z) :
  session_email session = Some u ->
  In n (map r_id (entries_of (GET session db))) <->
  exists e, In e (Entry_tbl db) /\ user e = u /\ id e = n.
Proof.
  intros Hu. unfold GET. rewrite Hu. cbn. split.
  - intros H. apply in_map_iff in H. destruct H as (row & <- & Hrow).
    destruct (select_only_owned db u row Hrow) as (e & He & Hown & Hid).
    exists e. auto.
  - intros (e & He & <- & <-). now apply select_lists_id.
Qed.



(** ** The id in the path *)

Lemma split_no_slash (s : string) :
  no_slash s = true -> split "/"%char s = [s].
Proof.
  induction s as [|c s IH]; [reflexivity|]. simpl.
  intros H. apply andb_true_iff in H. destruct H as [Hc Hs].
  apply negb_true_iff in Hc. rewrite Hc, IH by assumption. reflexivity.
Qed.

(** X4. The entry id the handlers read is the text after the last [/] of
    the path: for a path [p/seg] whose [seg] holds no [/], it is [seg]. *)
Theorem path_entryID_last_segment (req : Request) (p seg : string) :
  pathname req = (p ++ String "/"%char seg)%string ->
  no_slash seg = true ->
  path_entryID req = Some seg.
Proof.
  intros Hp Hs. unfold path_entryID. rewrite Hp, pop_split_app.
  now rewrite split_no_slash.
Qed.

Section Guards.

Variable int_of_string : string -> option Z.

(** X5. An authenticated PUT or DELETE on a path that ends in [/] answers
    400 and writes nothing. *)
Theorem trailing_slash_400 (session : option Session) (req : Request)
    (db : Db) (u p : string) :
  session_email session = Some u ->
  pathname req = (p ++ "/")%string ->
  (status (fst (PUT int_of_string session req db)) = 400 /\
   snd (PUT int_of_string session req db) = db) /\
  (status (fst (DELETE int_of_string session req db)) = 400 /\
   snd (DELETE int_of_string session req db) = db).
Proof.
  intros Hu Hp.
  assert (Ht : truthy (path_entryID req) = false).
  { unfold path_entryID. rewrite Hp.
    now rewrite (pop_split_app "/"%char p EmptyString). }
  destruct (PUT_DELETE_empty_segment int_of_string session req db u Hu Ht)
    as [-> ->]. cbn. auto.
Qed.

End Guards.

(** ** The paths through PUT and DELETE *)

Section Paths.

Variable int_of_string : string -> option Z.

Lemma unauthenticated_unchanged (session : option Session) (req : Request)
    (db_now now : Timestamp) (db : Db) :
  session_email session = None ->
  POST int_of_string session req db_now now db = (not_authenticated, db) /\
  PUT int_of_string session req db = (not_authenticated, db) /\
  DELETE int_of_string session req db = (not_authenticated, db).
Proof.
  intros Hu. unfold POST, PUT, DELETE, try_catch. now rewrite Hu.
Qed.

(** An authenticated PUT or DELETE either stops before it writes, with the
    status 400 or 500, or reads an id [n] from the path and runs its
    statements on it. *)
Lemma PUT_DELETE_paths (session : option Session) (req : Request) (db : Db)
    (u : string) :
  session_email session = Some u ->
  (In (status (fst (PUT int_of_string session req db))) [400; 500] /\
   snd (PUT int_of_string session req db) = db /\
   In (status (fst (DELETE int_of_string session req db))) [400; 500] /\
   snd (DELETE int_of_string session req db) = db) \/
  exists s n, path_entryID req = Some s /\ s <> EmptyString /\
              int_of_string s = Some n.
Proof.
  intros Hu.
  destruct (truthy (path_entryID req)) eqn:Ht.
  - destruct (path_entryID req) as [s|] eqn:Hs; [|discriminate].
    assert (Hne : s <> EmptyString) by (intros ->; discriminate).
    destruct (int_of_string s) as [n|] eqn:Hn.
    + right. now exists s, n.
    + left.
      destruct (PUT_DELETE_refused int_of_string session req db u s
                  Hu Hs Hne Hn) as [[-> ->] [-> ->]].
      cbn. auto 10.
  - left.
    destruct (PUT_DELETE_empty_segment int_of_string session req db u Hu Ht)
      as [-> ->]. cbn. auto 10.
Qed.

End Paths.

Lemma count_some {A : Type} (p : A -> bool) (l : list A) :
  (count p l =? 0) = false -> exists a, In a l /\ p a = true.
Proof.
  unfold count. intros H. apply Z.eqb_neq in H.
  destruct (filter p l) as [|a m] eqn:E; [now elim H|].
  exists a. apply filter_In. rewrite E. now left.
Qed.

Lemma annotation_ext (db1 db2 : Db) (n : Z) :
  attached n db1 = attached n db2 ->
  Competency_tbl db1 = Competency_tbl db2 ->
  annotation db1 n = annotation db2 n.
Proof.
  intros Ha Hc. unfold annotation. rewrite Ha.
  destruct (attached n db2); [reflexivity|].
  apply flat_map_ext. intros c. unfold competency_refs. now rewrite Hc.
Qed.

Lemma attached_app (n : Z) (db : Db) (t : list Entry)
    (rows : list EntryCompetency) (c : list Competency) (k : Z) :
  attached n (mkDb t (EntryCompetency_tbl db ++ rows) c k) =
  attached n db ++ map competencyID (filter (fun ec => entryID ec =? n) rows).
Proof. unfold attached; cbn. now rewrite filter_app, map_app. Qed.

Lemma attached_of_others (n m : Z) (db : Db) (t : list Entry)
    (c : list Competency) (k : Z) :
  n <> m ->
  attached n (mkDb t (others m db) c k) = attached n db.
Proof.
  intros Hnm. unfold attached, others; cbn. f_equal.
  rewrite filter_comm. apply filter_all.
  intros ec H. apply filter_In in H. destruct H as [_ H].
  apply Z.eqb_eq in H. apply negb_true_iff, Z.eqb_neq. congruence.
Qed.

Lemma tags_of_other_entry (n m : Z) (ids : list Z) :
  n <> m ->
  filter (fun ec => entryID ec =? n) (map (mkEntryCompetency m) ids) = [].
Proof.
  intros Hnm. apply filter_none. intros ec H.
  apply in_map_iff in H. destruct H as (c & <- & _). cbn.
  apply Z.eqb_neq. congruence.
Qed.

(** ** What the writes do *)

Lemma where_id_is_id (db : Db) (e : Entry) :
  NoDup (map id (Entry_tbl db)) -> In e (Entry_tbl db) ->
  forall x, In x (Entry_tbl db) ->
            where_id_user (id e) (user e) x = (id x =? id e).
Proof.
  intros Hn He x Hx. unfold where_id_user.
  destruct (id x =? id e) eqn:E; [|reflexivity].
  apply Z.eqb_eq in E.
  rewrite (NoDup_id_inj (Entry_tbl db) x e) by assumption.
  cbn. apply String.eqb_refl.
Qed.

Section Writes.

Variable int_of_string : string -> option Z.

(** X6. A PUT on an entry the caller owns sets the text of that entry to the
    text of the body and keeps its id, owner and creation time; every other
    row of the Entry table, the Competency table and the id counter stay as
    they were. *)
Theorem PUT_updates_text (session : option Session) (req : Request)
    (db : Db) (s : string) (e : Entry) :
  NoDup (map id (Entry_tbl db)) ->
  session_email session = Some (user e) ->
  path_entryID req = Some s -> s <> EmptyString ->
  int_of_string s = Some (id e) ->
  In e (Entry_tbl db) ->
  Entry_tbl (snd (PUT int_of_string session req db)) =
    map (fun x => if id x =? id e
                  then mkEntry (id x) (user x) (b_text (json req))
                         (createdAt x)
                  else x) (Entry_tbl db) /\
  In (mkEntry (id e) (user e) (b_text (json req)) (createdAt e))
     (Entry_tbl (snd (PUT int_of_string session req db))) /\
  Competency_tbl (snd (PUT int_of_string session req db)) =
    Competency_tbl db /\
  auto_increment (snd (PUT int_of_string session req db)) =
    auto_increment db.
Proof.
  intros Hn Hu Hs Hne Hi He.
  rewrite (PUT_steps _ _ _ _ (user e) s (id e)) by assumption.
  rewrite (count_found _ _ e)
    by (auto; apply where_id_user_true; auto).
  cbn [snd Entry_tbl Competency_tbl auto_increment].
  assert (Hmap : map (fun x => if where_id_user (id e) (user e) x
                               then mkEntry (id x) (user x) (b_text (json req))
                                      (createdAt x)
                               else x) (Entry_tbl db) =
                 map (fun x => if id x =? id e
                               then mkEntry (id x) (user x) (b_text (json req))
                                      (createdAt x)
                               else x) (Entry_tbl db)).
  { apply map_ext_in. intros x Hx.
    now rewrite (where_id_is_id db e). }
  rewrite Hmap. repeat split.
  apply in_map_iff. exists e. now rewrite Z.eqb_refl.
Qed.

(** X7. A DELETE on an entry the caller owns removes the row of that entry
    and all its tag rows and nothing else, and the caller's next GET does
    not show the id any more. *)
Theorem DELETE_removes_entry (session : option Session) (req : Request)
    (db : Db) (s : string) (e : Entry) :
  NoDup (map id (Entry_tbl db)) ->
  session_email session = Some (user e) ->
  path_entryID req = Some s -> s <> EmptyString ->
  int_of_string s = Some (id e) ->
  In e (Entry_tbl db) ->
  Entry_tbl (snd (DELETE int_of_string session req db)) =
    filter (fun x => negb (id x =? id e)) (Entry_tbl db) /\
  EntryCompetency_tbl (snd (DELETE int_of_string session req db)) =
    others (id e) db /\
  Competency_tbl (snd (DELETE int_of_string session req db)) =
    Competency_tbl db /\
  ~ In (id e)
      (map r_id
         (entries_of
            (GET session (snd (DELETE int_of_string session req db))))).
Proof.
  intros Hn Hu Hs Hne Hi He.
  rewrite (DELETE_steps _ _ _ _ (user e) s (id e)) by assumption.
  cbn [snd Entry_tbl EntryCompetency_tbl Competency_tbl].
  assert (Hf : filter (fun x => negb (where_id_user (id e) (user e) x))
                 (Entry_tbl db) =
               filter (fun x => negb (id x =? id e)) (Entry_tbl db)).
  { apply filter_ext_in. intros x Hx. now rewrite (where_id_is_id db e). }
  rewrite Hf. repeat split.
  unfold GET. rewrite Hu. cbn [entries_of body NextResponse_json].
  intros H. apply in_map_iff in H. destruct H as (row & Hid & Hrow).
  apply select_only_owned in Hrow. destruct Hrow as (x & Hx & _ & Hrx).
  cbn in Hx. apply filter_In in Hx. destruct Hx as [_ Hx].
  apply negb_true_iff, Z.eqb_neq in Hx. congruence.
Qed.

(** X8. The handlers keep the primary key: when the ids of the Entry table
    are distinct and below the id counter, they are so after any POST, PUT
    or DELETE, whatever the session and the request. *)
Theorem handlers_keep_primary_key (session : option Session) (req : Request)
    (db_now now : Timestamp) (db : Db) :
  wf db ->
  wf (snd (POST int_of_string session req db_now now db)) /\
  wf (snd (PUT int_of_string session req db)) /\
  wf (snd (DELETE int_of_string session req db)).
Proof.
  intros H. split; [|split].
  - now apply wf_POST.
  - now apply wf_PUT.
  - now apply wf_DELETE.
Qed.

(** X9. The handlers leave no tag row without its entry: when every row of
    EntryCompetency refers to an existing entry, the same holds after any
    POST, PUT or DELETE, whatever the session and the request. *)
Theorem handlers_keep_references (session : option Session) (req : Request)
    (db_now now : Timestamp) (db : Db) :
  refs_ok db ->
  refs_ok (snd (POST int_of_string session req db_now now db)) /\
  refs_ok (snd (PUT int_of_string session req db)) /\
  refs_ok (snd (DELETE int_of_string session req db)).
Proof.
  intros Hr.
  destruct (session_email session) as [u|] eqn:Hu.
  2:{ destruct (unauthenticated_unchanged int_of_string session req
                  db_now now db Hu) as (-> & -> & ->). now cbn. }
  split.
  { rewrite (POST_steps _ _ _ _ _ _ u Hu). intros ec Hec. cbn in *.
    apply in_app_or in Hec. destruct Hec as [Hec|Hec].
    - destruct (Hr ec Hec) as (e & He & Hid). exists e.
      split; [apply in_or_app; now left | exact Hid].
    - apply in_map_iff in Hec. destruct Hec as (c & <- & _).
      eexists. split; [apply in_or_app; right; now left | reflexivity]. }
  destruct (PUT_DELETE_paths int_of_string session req db u Hu)
    as [(_ & -> & _ & ->) | (s & n & Hs & Hne & Hn)]; [now split|].
  split.
  - rewrite (PUT_steps _ _ _ _ u s n) by assumption.
    set (upd := fun e : Entry => if where_id_user n u e then _ else e).
    assert (Hupd : forall e, In e (Entry_tbl db) ->
              exists e', In e' (map upd (Entry_tbl db)) /\ id e' = id e).
    { intros e He. exists (upd e). split; [now apply in_map|].
      unfold upd. now destruct (where_id_user n u e). }
    destruct (count (where_id_user n u) (Entry_tbl db) =? 0) eqn:Hc;
      intros ec Hec; cbn in *.
    + destruct (Hr ec Hec) as (e & He & Hid).
      destruct (Hupd e He) as (e' & He' & Hid'). exists e'.
      split; [exact He' | congruence].
    + apply in_app_or in Hec. destruct Hec as [Hec|Hec].
      * apply filter_In in Hec. destruct Hec as [Hec _].
        destruct (Hr ec Hec) as (e & He & Hid).
        destruct (Hupd e He) as (e' & He' & Hid'). exists e'.
        split; [exact He' | congruence].
      * apply in_map_iff in Hec. destruct Hec as (c & <- & _). cbn.
        apply count_some in Hc. destruct Hc as (e & He & Hw).
        apply where_id_user_true in Hw. destruct Hw as [Hid _].
        destruct (Hupd e He) as (e' & He' & Hid'). exists e'.
        split; [exact He' | congruence].
  - rewrite (DELETE_steps _ _ _ _ u s n) by assumption.
    intros ec Hec. cbn in *. apply filter_In in Hec.
    destruct Hec as [Hec Hne'].
    apply negb_true_iff, Z.eqb_neq in Hne'.
    destruct (Hr ec Hec) as (e & He & Hid). exists e.
    split; [|exact Hid]. apply filter_In. split; [exact He|].
    apply negb_true_iff, where_id_user_false. intros [Hn' _]. congruence.
Qed.

(** X10. No handler writes the Competency table: it is the same after any
    POST, PUT or DELETE, whatever the session and the request. *)
Theorem Competency_is_read_only (session : option Session) (req : Request)
    (db_now now : Timestamp) (db : Db) :
  Competency_tbl (snd (POST int_of_string session req db_now now db)) =
    Competency_tbl db /\
  Competency_tbl (snd (PUT int_of_string session req db)) =
    Competency_tbl db /\
  Competency_tbl (snd (DELETE int_of_string session req db)) =
    Competency_tbl db.
Proof.
  destruct (session_email session) as [u|] eqn:Hu.
  2:{ destruct (unauthenticated_unchanged int_of_string session req
                  db_now now db Hu) as (-> & -> & ->). now cbn. }
  split; [now rewrite (POST_steps _ _ _ _ _ _ u Hu)|].
  destruct (PUT_DELETE_paths int_of_string session req db u Hu)
    as [(_ & -> & _ & ->) | (s & n & Hs & Hne & Hn)]; [now split|].
  rewrite (PUT_steps _ _ _ _ u s n), (DELETE_steps _ _ _ _ u s n)
    by assumption.
  destruct (count (where_id_user n u) (Entry_tbl db) =? 0); now split.
Qed.

End Writes.

Lemma update_idem (t : string) (n : Z) (u : string) (l : list Entry) :
  let upd := fun e => if where_id_user n u e
                      then mkEntry (id e) (user e) t (createdAt e) else e in
  map upd (map upd l) = map upd l /\
  count (where_id_user n u) (map upd l) = count (where_id_user n u) l.
Proof.
  intros upd.
  assert (Hw : forall e, where_id_user n u (upd e) = where_id_user n u e).
  { intros e. unfold upd. now destruct (where_id_user n u e) eqn:E. }
  split.
  - rewrite map_map. apply map_ext. intros e. unfold upd at 1.
    rewrite Hw. unfold upd. now destruct (where_id_user n u e).
  - unfold count. f_equal. induction l as [|e l IH]; [reflexivity|].
    cbn [map filter]. rewrite Hw.
    destruct (where_id_user n u e); cbn [List.length]; congruence.
Qed.

Section Composition.

Variable int_of_string : string -> option Z.

(** X11. A handler run for a caller leaves the entries of all other users in
    the Entry table as they were: POST, PUT and DELETE neither change nor
    remove a row whose owner is not the caller. *)
Theorem other_users_entries_untouched (session : option Session)
    (req : Request) (db_now now : Timestamp) (db : Db) (u : string) :
  session_email session = Some u ->
  let foreign := fun e => negb (owned_by u e) in
  filter foreign
    (Entry_tbl (snd (POST int_of_string session req db_now now db))) =
    filter foreign (Entry_tbl db) /\
  filter foreign (Entry_tbl (snd (PUT int_of_string session req db))) =
    filter foreign (Entry_tbl db) /\
  filter foreign (Entry_tbl (snd (DELETE int_of_string session req db))) =
    filter foreign (Entry_tbl db).
Proof.
  intros Hu foreign. split.
  { rewrite (POST_steps _ _ _ _ _ _ u Hu). cbn. rewrite filter_app. cbn.
    unfold foreign at 2, owned_by. cbn. rewrite String.eqb_refl. cbn.
    apply app_nil_r. }
  destruct (PUT_DELETE_paths int_of_string session req db u Hu)
    as [(_ & -> & _ & ->) | (s & n & Hs & Hne & Hn)]; [now split|].
  assert (Hw : forall e, where_id_user n u e = true -> foreign e = false).
  { intros e H. apply where_id_user_true in H. destruct H as [_ <-].
    unfold foreign, owned_by. now rewrite String.eqb_refl. }
  split.
  - rewrite (PUT_steps _ _ _ _ u s n) by assumption.
    assert (Hmap : forall t,
              filter foreign
                (map (fun e => if where_id_user n u e
                               then mkEntry (id e) (user e) t (createdAt e)
                               else e) (Entry_tbl db)) =
              filter foreign (Entry_tbl db)).
    { intros t. induction (Entry_tbl db) as [|e l IH]; [reflexivity|].
      cbn [map filter]. rewrite IH.
      destruct (where_id_user n u e) eqn:E; [|reflexivity].
      rewrite (Hw e E).
      assert (Hf : foreign (mkEntry (id e) (user e) t (createdAt e))
                   = false) by (apply (Hw e E)).
      now rewrite Hf. }
    destruct (count (where_id_user n u) (Entry_tbl db) =? 0); cbn;
      apply Hmap.
  - rewrite (DELETE_steps _ _ _ _ u s n) by assumption. cbn.
    rewrite filter_comm. apply filter_all.
    intros e He. apply filter_In in He. destruct He as [_ He].
    destruct (where_id_user n u e) eqn:E; [|reflexivity].
    rewrite (Hw e E) in He. discriminate.
Qed.

(** X12. PUT is idempotent on an entry the caller owns: the same request
    sent a second time gives the same response and leaves the database as
    the first one left it. *)
Theorem PUT_twice_is_PUT_once (session : option Session) (req : Request)
    (db : Db) (u s : string) (n : Z) (e : Entry) :
  session_email session = Some u ->
  path_entryID req = Some s -> s <> EmptyString ->
  int_of_string s = Some n ->
  In e (Entry_tbl db) -> id e = n -> user e = u ->
  PUT int_of_string session req
    (snd (PUT int_of_string session req db)) =
  PUT int_of_string session req db.
Proof.
  intros Hu Hs Hne Hn He Hid Hown.
  rewrite !(PUT_steps _ _ _ _ u s n) by assumption.
  assert (Hc : (count (where_id_user n u) (Entry_tbl db) =? 0) = false).
  { apply (count_found _ _ e); auto. now apply where_id_user_true. }
  rewrite Hc. cbn [snd Entry_tbl Competency_tbl auto_increment].
  destruct (update_idem (b_text (json req)) n u (Entry_tbl db))
    as [Hmap Hcount].
  rewrite Hcount, Hc, Hmap. f_equal. f_equal. f_equal.
  exact (others_replaced n db (competencyIDs (json req))).
Qed.

(** X13. The statuses the handlers answer with: GET always 200; POST 200,
    401 or 500; PUT and DELETE 200, 400, 401, 404 or 500. *)
Theorem handler_statuses (session : option Session) (req : Request)
    (db_now now : Timestamp) (db : Db) :
  status (GET session db) = 200 /\
  In (status (fst (POST int_of_string session req db_now now db)))
     [200; 401; 500] /\
  In (status (fst (PUT int_of_string session req db)))
     [200; 400; 401; 404; 500] /\
  In (status (fst (DELETE int_of_string session req db)))
     [200; 400; 401; 404; 500].
Proof.
  split.
  { unfold GET. now destruct (session_email session). }
  destruct (session_email session) as [u|] eqn:Hu.
  2:{ destruct (unauthenticated_unchanged int_of_string session req
                  db_now now db Hu) as (-> & -> & ->). cbn. auto 10. }
  split; [rewrite (POST_steps _ _ _ _ _ _ u Hu); cbn; auto|].
  destruct (PUT_DELETE_paths int_of_string session req db u Hu)
    as [(Hp & _ & Hd & _) | (s & n & Hs & Hne & Hn)].
  - cbn in Hp, Hd. cbn. intuition auto.
  - rewrite (PUT_steps _ _ _ _ u s n), (DELETE_steps _ _ _ _ u s n)
      by assumption.
    destruct (count (where_id_user n u) (Entry_tbl db) =? 0); cbn; auto 10.
Qed.

(** X14. When the database refuses the path segment as an id, the first
    statement of PUT or DELETE throws, the handler answers 500 and nothing
    has been written. *)
Theorem refused_id_500 (session : option Session) (req : Request) (db : Db)
    (u s : string) :
  session_email session = Some u ->
  path_entryID req = Some s -> s <> EmptyString ->
  int_of_string s = None ->
  (status (fst (PUT int_of_string session req db)) = 500 /\
   snd (PUT int_of_string session req db) = db) /\
  (status (fst (DELETE int_of_string session req db)) = 500 /\
   snd (DELETE int_of_string session req db) = db).
Proof. apply PUT_DELETE_refused. Qed.

End Composition.

(** ** GET after a write *)

Lemma filter_map_comm {A : Type} (p : A -> bool) (f : A -> A) (l : list A) :
  (forall x, p (f x) = p x) -> filter p (map f l) = map f (filter p l).
Proof.
  intros H. induction l as [|a l IH]; [reflexivity|].
  cbn [map filter]. rewrite H, IH. now destruct (p a).
Qed.

Lemma attached_replaced_other (m n : Z) (db : Db) (t : list Entry)
    (ids : list Z) (c : list Competency) (k : Z) :
  m <> n ->
  attached m (mkDb t (others n db ++ map (mkEntryCompetency n) ids) c k) =
  attached m db.
Proof.
  intros Hmn. unfold attached. cbn [EntryCompetency_tbl].
  rewrite filter_app, map_app, tags_of_other_entry, app_nil_r by assumption.
  exact (attached_of_others m n db t c k Hmn).
Qed.


Section AfterWrite.

Variable int_of_string : string -> option Z.




(** GET after a DELETE on an owned entry is GET before it, without the row
    of the entry. *)
Lemma GET_after_DELETE (session : option Session) (req : Request)
    (db : Db) (s : string) (e : Entry) :
  NoDup (map id (Entry_tbl db)) ->
  session_email session = Some (user e) ->
  path_entryID req = Some s -> s <> EmptyString ->
  int_of_string s = Some (id e) ->
  In e (Entry_tbl db) ->
  ok (fst (DELETE int_of_string session req db)) = true /\
  entries_of (GET session (snd (DELETE int_of_string session req db))) =
    filter (fun row => negb (r_id row =? id e)) (entries_of (GET session db)).
Proof.
  intros Hnd Hu Hs Hne Hi He.
  rewrite (DELETE_steps _ _ _ _ (user e) s (id e)) by assumption.
  rewrite (count_found _ _ e) by (auto; apply where_id_user_true; auto).
  split; [reflexivity|]. cbn [snd].
  unfold GET. rewrite Hu. cbn [entries_of body NextResponse_json].
  set (db' := mkDb _ _ _ _).
  assert (Hnd' : NoDup (map id (Entry_tbl db')))
    by (cbn; now apply NoDup_map_filter).
  rewrite !select_entries_pk by assumption.
  rewrite order_by_desc_filter. f_equal. cbn [Entry_tbl db'].
  rewrite filter_comm.
  set (l := filter (owned_by (user e)) (Entry_tbl db)).
  assert (Hl : forall x, In x l -> In x (Entry_tbl db)).
  { intros x Hx. apply filter_In in Hx. tauto. }
  clearbody l. induction l as [|x l IH]; [reflexivity|].
  cbn [filter map]. rewrite (where_id_is_id db e) by (auto; apply Hl; now left).
  change (r_id (entry_row db x)) with (id x).
  rewrite <- IH by (intros; apply Hl; now right).
  destruct (id x =? id e) eqn:E; cbn [negb map]; [reflexivity|].
  f_equal. unfold entry_row. f_equal. apply annotation_ext; [|reflexivity].
  apply attached_of_others. now apply Z.eqb_neq.
Qed.

(** X17. After a DELETE on an entry the caller owns, the caller's GET is
    what it was before without the row of that entry: the other rows and
    their order are the same. *)
Theorem DELETE_then_GET (session : option Session) (req : Request)
    (db : Db) (s : string) (e : Entry) :
  NoDup (map id (Entry_tbl db)) ->
  session_email session = Some (user e) ->
  path_entryID req = Some s -> s <> EmptyString ->
  int_of_string s = Some (id e) ->
  In e (Entry_tbl db) ->
  entries_of (GET session (snd (DELETE int_of_string session req db))) =
    filter (fun row => negb (r_id row =? id e)) (entries_of (GET session db)).
Proof.
  intros Hnd Hu Hs Hne Hi He.
  apply (GET_after_DELETE session req db s e); assumption.
Qed.

End AfterWrite.

(** * The thoughts page *)

(** ** Selecting competencies *)

Lemma same_value_eq (x v : option Z) : same_value x v = true <-> x = v.
Proof.
  destruct x as [a|], v as [b|]; cbn; try (split; congruence).
  rewrite Z.eqb_eq. split; congruence.
Qed.

Lemma includes_In (l : list (option Z)) (v : option Z) :
  includes l v = true <-> In v l.
Proof.
  unfold includes. rewrite existsb_exists. split.
  - intros (x & Hx & E). apply same_value_eq in E. now subst.
  - intros H. exists v. split; [exact H | now apply same_value_eq].
Qed.

Lemma includes_false (l : list (option Z)) (v : option Z) :
  includes l v = false <-> ~ In v l.
Proof.
  rewrite <- includes_In. destruct (includes l v); split; congruence.
Qed.

Lemma In_without (l : list (option Z)) (c v : option Z) :
  In v (filter (fun x => negb (same_value x c)) l) <-> In v l /\ v <> c.
Proof.
  rewrite filter_In, negb_true_iff.
  destruct (same_value v c) eqn:E.
  - apply same_value_eq in E. split; intros [H1 H2]; congruence.
  - split; intros [H1 H2]; split; auto.
    intros Hc. apply same_value_eq in Hc. congruence.
Qed.

(** X18. Ticking the checkbox of a competency toggles it in the draft: its
    id is among the new competencies exactly when it was not before, the
    other values of the draft are kept, and a draft without repetition stays
    without repetition. *)
Theorem handleCompetencyChange_toggles (c : Z) (st : Page) :
  let st' := handleCompetencyChange c st in
  (In (Some c) (newCompetencies st') <-> ~ In (Some c) (newCompetencies st)) /\
  (forall v, v <> Some c ->
             (In v (newCompetencies st') <-> In v (newCompetencies st))) /\
  (NoDup (newCompetencies st) -> NoDup (newCompetencies st')).
Proof.
  cbn. destruct (includes (newCompetencies st) (Some c)) eqn:E.
  - apply includes_In in E. split; [|split].
    + rewrite In_without. tauto.
    + intros v Hv. rewrite In_without. tauto.
    + intros H. now apply NoDup_filter.
  - apply includes_false in E. split; [|split].
    + rewrite in_app_iff. cbn. tauto.
    + intros v Hv. rewrite in_app_iff. cbn. split; [|tauto].
      intros [H|[H|[]]]; [exact H | congruence].
    + intros H. apply NoDup_app; [exact H | repeat constructor; intros [] |].
      intros x Hx [<-|[]]. contradiction.
Qed.

(** X19. Ticking the checkbox of a competency that is not in the draft and
    ticking it again gives back the page as it was. *)
Theorem handleCompetencyChange_twice (c : Z) (st : Page) :
  ~ In (Some c) (newCompetencies st) ->
  handleCompetencyChange c (handleCompetencyChange c st) = st.
Proof.
  intros H. unfold handleCompetencyChange at 2.
  rewrite (proj2 (includes_false _ _) H).
  unfold handleCompetencyChange.
  cbn [newCompetencies thoughts competencies editing newText].
  assert (Hin : includes (newCompetencies st ++ [Some c]) (Some c) = true).
  { apply includes_In, in_or_app. right. now left. }
  rewrite Hin, filter_app. cbn [filter same_value]. rewrite Z.eqb_refl.
  cbn [negb]. rewrite app_nil_r, filter_all; [now destruct st|].
  intros x Hx. apply negb_true_iff.
  destruct (same_value x (Some c)) eqn:E; [|reflexivity].
  apply same_value_eq in E. congruence.
Qed.

(** ** The requests of the page *)

Lemma digits_no_slash (d : Decimal.uint) :
  no_slash (NilEmpty.string_of_uint d) = true.
Proof. induction d; simpl; auto. Qed.

Lemma string_of_uint_no_slash (d : Decimal.uint) :
  no_slash (NilZero.string_of_uint d) = true.
Proof. destruct d; try reflexivity; apply digits_no_slash. Qed.

Lemma String_of_number_no_slash (n : Z) :
  no_slash (String_of_number n) = true.
Proof.
  unfold String_of_number, NilZero.string_of_int.
  destruct (Z.to_int n); cbn; apply string_of_uint_no_slash.
Qed.

Lemma String_of_number_inhabited (n : Z) : String_of_number n <> EmptyString.
Proof.
  unfold String_of_number, NilZero.string_of_int.
  destruct (Z.to_int n) as [d|d]; [|discriminate].
  destruct d; discriminate.
Qed.

(** The id the handlers read from the path the page builds is the decimal
    form of the number. *)
Lemma entry_url_segment (n : Z) (b : Body) :
  path_entryID (mkRequest (entry_url n) b) = Some (String_of_number n).
Proof.
  unfold path_entryID, entry_url. cbn [pathname].
  change ("/api/entry/" ++ String_of_number n)%string
    with ("/api/entry" ++ String "/"%char (String_of_number n))%string.
  rewrite pop_split_app, split_no_slash; [reflexivity|].
  apply String_of_number_no_slash.
Qed.


Lemma filter_of_map {A B : Type} (p : B -> bool) (f : A -> B) (l : list A) :
  filter p (map f l) = map f (filter (fun a => p (f a)) l).
Proof.
  induction l as [|a l IH]; [reflexivity|]. cbn.
  rewrite IH. now destruct (p (f a)).
Qed.

(** ** The page against the database *)

Section PageAndService.

Variable int_of_string : string -> option Z.
Variable format : Timestamp -> string.

(** X20. When the page shows what GET returns and the caller deletes one of
    the entries, the database reading the decimal form of its id as that id,
    the page afterwards shows what GET returns on the new database: the
    thought is gone, the others are in place, and the rest of the page state
    is as before. *)
Theorem handleDelete_page_follows_GET (session : option Session) (st : Page)
    (db : Db) (e : Entry) :
  NoDup (map id (Entry_tbl db)) ->
  session_email session = Some (user e) ->
  In e (Entry_tbl db) ->
  int_of_string (String_of_number (id e)) = Some (id e) ->
  thoughts st = map (formatted format) (entries_of (GET session db)) ->
  let st' := fst (handleDelete int_of_string session (id e) st db) in
  let db' := snd (handleDelete int_of_string session (id e) st db) in
  thoughts st' = map (formatted format) (entries_of (GET session db')) /\
  ~ In (id e) (map t_id (thoughts st')) /\
  competencies st' = competencies st /\ editing st' = editing st /\
  newText st' = newText st /\ newCompetencies st' = newCompetencies st.
Proof.
  intros Hnd Hu He Hi Hpage. unfold handleDelete.
  set (req := mkRequest (entry_url (id e)) (mkBody EmptyString [])).
  destruct (GET_after_DELETE int_of_string session req db
              (String_of_number (id e)) e Hnd Hu
              (entry_url_segment _ _) (String_of_number_inhabited _) Hi He)
    as [Hok Hget].
  destruct (DELETE int_of_string session req db) as [res db'].
  cbn [fst snd] in Hok, Hget. rewrite Hok. cbn [negb fst snd thoughts
    competencies editing newText newCompetencies].
  rewrite Hget, Hpage, !filter_of_map. repeat split.
  rewrite map_map. cbn [t_id formatted].
  intros H. apply in_map_iff in H. destruct H as (row & Hid & Hrow).
  apply filter_In in Hrow. destruct Hrow as [_ Hrow].
  apply negb_true_iff, Z.eqb_neq in Hrow. cbn in Hrow. congruence.
Qed.


(** X22. When the page shows what GET returns and the caller saves the edit
    of one of the entries with no competency selected, the page afterwards
    shows the thought with an empty list of competencies, which is not what
    GET returns on the new database. *)
Theorem handleSaveEdit_no_competency (session : option Session)
    (st : Page) (db : Db) (e : Entry) (ed : Thought) :
  NoDup (map id (Entry_tbl db)) ->
  session_email session = Some (user e) ->
  In e (Entry_tbl db) ->
  int_of_string (String_of_number (id e)) = Some (id e) ->
  thoughts st = map (formatted format) (entries_of (GET session db)) ->
  editing st = Some ed -> t_id ed = id e ->
  newCompetencies st = [] ->
  exists st' db',
    handleSaveEdit int_of_string session st db = Some (st', db') /\
    In (mkThought (id e) (newText st) (format (createdAt e)) [])
       (thoughts st') /\
    thoughts st' <> map (formatted format) (entries_of (GET session db')).
Proof.
  intros Hnd Hu He Hi Hpage Hed Hid Hnew.
  unfold handleSaveEdit. rewrite Hed, Hnew, Hid. cbn [numbers].
  set (req := mkRequest (entry_url (id e)) (mkBody (newText st) [])).
  pose proof (entry_url_segment (id e) (json req)) as Hs.
  pose proof (String_of_number_inhabited (id e)) as Hinh.
  pose proof (PUT_steps int_of_string session req db (user e) _ (id e)
                Hu Hs Hinh Hi) as Hsteps.
  rewrite (count_found _ _ e) in Hsteps
    by (auto; apply where_id_user_true; auto).
  destruct (PUT int_of_string session req db) as [res db'].
  inversion Hsteps as [[Hres Hdb']].
  cbn [ok status NextResponse_json Z.leb Z.compare Pos.compare
       Pos.compare_cont andb negb].
  eexists. eexists. split; [reflexivity|].
  cbn [thoughts].
  assert (Hin : In (mkThought (id e) (newText st) (format (createdAt e)) [])
                  (map (fun thought =>
                          if t_id thought =? id e
                          then mkThought (t_id thought) (newText st)
                                 (t_time thought) []
                          else thought) (thoughts st))).
  { rewrite Hpage, map_map. apply in_map_iff.
    exists (entry_row db e). cbn. rewrite Z.eqb_refl.
    split; [reflexivity|]. now apply GET_lists_owned. }
  split; [exact Hin|].
  intros Heq. rewrite Heq in Hin. apply in_map_iff in Hin.
  destruct Hin as (row & Hrow & Hin).
  unfold GET in Hin. rewrite Hu in Hin.
  cbn [entries_of body NextResponse_json] in Hin.
  apply select_competencies_inhabited in Hin.
  apply Hin. now inversion Hrow.
Qed.

End PageAndService.

(** ** One user's writes and the others *)

Lemma count_zero {A : Type} (p : A -> bool) (l : list A) :
  (count p l =? 0) = true -> forall a, In a l -> p a = false.
Proof.
  unfold count. intros H a Ha. apply Z.eqb_eq in H.
  destruct (p a) eqn:E; [|reflexivity].
  assert (Hin : In a (filter p l)) by (apply filter_In; auto).
  destruct (filter p l); [destruct Hin | discriminate].
Qed.

Lemma others_all (n : Z) (db : Db) :
  attached n db = [] -> others n db = EntryCompetency_tbl db.
Proof.
  unfold attached, others. intros H. apply map_eq_nil in H.
  apply filter_all. intros ec Hec. apply negb_true_iff.
  destruct (entryID ec =? n) eqn:E; [|reflexivity].
  assert (Hin : In ec (filter (fun ec => entryID ec =? n)
                         (EntryCompetency_tbl db)))
    by (apply filter_In; auto).
  rewrite H in Hin. destruct Hin.
Qed.

Section Isolation.

Variable int_of_string : string -> option Z.

(** X23. A DELETE whose id is the id of no entry at all answers 404 and, on
    a database where every tag row refers to an existing entry, changes
    nothing. *)
Theorem DELETE_unknown_id_unchanged (session : option Session)
    (req : Request) (db : Db) (u s : string) (n : Z) :
  refs_ok db ->
  session_email session = Some u ->
  path_entryID req = Some s -> s <> EmptyString ->
  int_of_string s = Some n ->
  ~ In n (map id (Entry_tbl db)) ->
  status (fst (DELETE int_of_string session req db)) = 404 /\
  snd (DELETE int_of_string session req db) = db.
Proof.
  intros Hr Hu Hs Hne Hn Hnone.
  assert (Hf : forall e, In e (Entry_tbl db) -> where_id_user n u e = false).
  { intros e He. apply where_id_user_false. intros [Hid _].
    apply Hnone. rewrite <- Hid. now apply in_map. }
  rewrite (DELETE_steps _ _ _ _ u s n) by assumption.
  rewrite count_none by exact Hf. cbn [Z.eqb fst snd]. split; [reflexivity|].
  rewrite filter_all by (intros e He; now rewrite Hf).
  rewrite others_all; [now destruct db|].
  unfold attached. rewrite filter_none; [reflexivity|].
  intros ec Hec. apply Z.eqb_neq. intros E.
  destruct (Hr ec Hec) as (e & He & Hid). apply Hnone.
  rewrite <- E, <- Hid. now apply in_map.
Qed.

(** X24. A POST or a PUT of one user changes nothing of what GET returns to
    another user, on a database that keeps its primary key. *)
Theorem POST_PUT_invisible_to_others (session other : option Session)
    (req : Request) (db_now now : Timestamp) (db : Db) (u v : string) :
  wf db ->
  session_email session = Some u ->
  session_email other = Some v -> u <> v ->
  entries_of
    (GET other (snd (POST int_of_string session req db_now now db))) =
    entries_of (GET other db) /\
  entries_of (GET other (snd (PUT int_of_string session req db))) =
    entries_of (GET other db).
Proof.
  intros Hwf Hu Hv Huv.
  pose proof (wf_POST int_of_string session req db_now now db Hwf)
    as [Hnd1 _].
  pose proof (wf_PUT int_of_string session req db Hwf) as [Hnd2 _].
  destruct Hwf as [Hnd Hlt].
  unfold GET. rewrite Hv. cbn [entries_of body NextResponse_json].
  rewrite !select_entries_pk by assumption. clear Hnd1 Hnd2.
  split; f_equal.
  - rewrite (POST_steps _ _ _ _ _ _ u Hu). cbn [snd Entry_tbl].
    rewrite filter_app. cbn [filter]. unfold owned_by at 2. cbn [user].
    apply String.eqb_neq in Huv. rewrite Huv, app_nil_r.
    apply map_ext_in. intros e He. apply filter_In in He.
    destruct He as [He _]. unfold entry_row. f_equal.
    apply annotation_ext; [|reflexivity].
    rewrite attached_app, tags_of_other_entry, app_nil_r; [reflexivity|].
    rewrite Forall_forall in Hlt. specialize (Hlt e He). lia.
  - destruct (PUT_DELETE_paths int_of_string session req db u Hu)
      as [(_ & -> & _) | (s & n & Hs & Hne & Hn)]; [reflexivity|].
    rewrite (PUT_steps _ _ _ _ u s n) by assumption.
    set (upd := fun e : Entry => if where_id_user n u e then _ else e).
    assert (Hupd : forall x, owned_by v x = true -> upd x = x).
    { intros x Hx. unfold upd.
      destruct (where_id_user n u x) eqn:E; [|reflexivity].
      apply where_id_user_true in E. destruct E as [_ E].
      apply String.eqb_eq in Hx. congruence. }
    assert (Hown : forall x, owned_by v (upd x) = owned_by v x).
    { intros x. unfold upd. now destruct (where_id_user n u x). }
    destruct (count (where_id_user n u) (Entry_tbl db) =? 0) eqn:Hc;
      cbn [snd Entry_tbl set_Entry_tbl];
      rewrite filter_map_comm, map_map by exact Hown;
      apply map_ext_in; intros x Hx; apply filter_In in Hx;
      destruct Hx as [Hx Hxv]; rewrite (Hupd x Hxv);
      unfold entry_row; f_equal; apply annotation_ext; try reflexivity.
    apply attached_replaced_other.
    apply count_some in Hc. destruct Hc as (e & He & Hw).
    apply where_id_user_true in Hw. destruct Hw as [Hid Hue].
    intros Heq. apply String.eqb_eq in Hxv.
    assert (x = e) by (apply (NoDup_id_inj (Entry_tbl db)); auto; congruence).
    congruence.
Qed.

End Isolation.

(** * The further properties at the sample data *)


Lemma sample_refs_ok : refs_ok sample.
Proof.
  intros ec [<-|[<-|[]]]; exists entry1; cbn; auto.
Qed.

Lemma GET_ids_are_the_callers_witness :
  In 1 (map r_id (entries_of (GET ann sample))) <->
  exists e, In e (Entry_tbl sample) /\ user e = "ann@school.org" /\ id e = 1.
Proof.
  apply (GET_ids_are_the_callers ann sample "ann@school.org" 1).
  reflexivity.
Defined.



Lemma path_entryID_last_segment_witness :
  path_entryID on_entry1 = Some "1".
Proof.
  apply (path_entryID_last_segment on_entry1 "/api/entry" "1");
    reflexivity.
Defined.

Lemma trailing_slash_400_witness :
  (status (fst (PUT decimal_id ann on_slash sample)) = 400 /\
   snd (PUT decimal_id ann on_slash sample) = sample) /\
  (status (fst (DELETE decimal_id ann on_slash sample)) = 400 /\
   snd (DELETE decimal_id ann on_slash sample) = sample).
Proof.
  apply (trailing_slash_400 decimal_id ann on_slash sample
           "ann@school.org" "/api/entry"); reflexivity.
Defined.

Lemma PUT_updates_text_witness :
  Entry_tbl (snd (PUT decimal_id ann on_entry1 sample)) =
    map (fun x => if id x =? 1
                  then mkEntry (id x) (user x) "edited" (createdAt x)
                  else x) (Entry_tbl sample) /\
  In (mkEntry 1 "ann@school.org" "edited" 1000)
     (Entry_tbl (snd (PUT decimal_id ann on_entry1 sample))) /\
  Competency_tbl (snd (PUT decimal_id ann on_entry1 sample)) =
    Competency_tbl sample /\
  auto_increment (snd (PUT decimal_id ann on_entry1 sample)) =
    auto_increment sample.
Proof.
  apply (PUT_updates_text decimal_id ann on_entry1 sample "1" entry1);
    try reflexivity; [apply sample_NoDup | discriminate | simpl; auto].
Defined.

Lemma DELETE_removes_entry_witness :
  Entry_tbl (snd (DELETE decimal_id ann on_entry1 sample)) =
    filter (fun x => negb (id x =? 1)) (Entry_tbl sample) /\
  EntryCompetency_tbl (snd (DELETE decimal_id ann on_entry1 sample)) =
    others 1 sample /\
  Competency_tbl (snd (DELETE decimal_id ann on_entry1 sample)) =
    Competency_tbl sample /\
  ~ In 1
      (map r_id
         (entries_of
            (GET ann (snd (DELETE decimal_id ann on_entry1 sample))))).
Proof.
  apply (DELETE_removes_entry decimal_id ann on_entry1 sample "1" entry1);
    try reflexivity; [apply sample_NoDup | discriminate | simpl; auto].
Defined.

Lemma handlers_keep_primary_key_witness :
  wf (snd (POST decimal_id ann on_entry1 3000 3001 sample)) /\
  wf (snd (PUT decimal_id ann on_entry1 sample)) /\
  wf (snd (DELETE decimal_id ann on_entry1 sample)).
Proof.
  apply (handlers_keep_primary_key decimal_id ann on_entry1 3000 3001 sample).
  apply sample_wf.
Defined.

Lemma handlers_keep_references_witness :
  refs_ok (snd (POST decimal_id bob on_entry1 3000 3001 sample)) /\
  refs_ok (snd (PUT decimal_id bob on_entry1 sample)) /\
  refs_ok (snd (DELETE decimal_id bob on_entry1 sample)).
Proof.
  apply (handlers_keep_references decimal_id bob on_entry1 3000 3001 sample).
  apply sample_refs_ok.
Defined.

Lemma other_users_entries_untouched_witness :
  let foreign := fun e => negb (owned_by "bob@school.org" e) in
  filter foreign
    (Entry_tbl (snd (POST decimal_id bob on_entry1 3000 3001 sample))) =
    filter foreign (Entry_tbl sample) /\
  filter foreign (Entry_tbl (snd (PUT decimal_id bob on_entry1 sample))) =
    filter foreign (Entry_tbl sample) /\
  filter foreign (Entry_tbl (snd (DELETE decimal_id bob on_entry1 sample))) =
    filter foreign (Entry_tbl sample).
Proof.
  apply (other_users_entries_untouched decimal_id bob on_entry1 3000 3001
           sample "bob@school.org").
  reflexivity.
Defined.

Lemma PUT_twice_is_PUT_once_witness :
  PUT decimal_id ann on_entry1 (snd (PUT decimal_id ann on_entry1 sample)) =
  PUT decimal_id ann on_entry1 sample.
Proof.
  apply (PUT_twice_is_PUT_once decimal_id ann on_entry1 sample
           "ann@school.org" "1" 1 entry1);
    try reflexivity; [discriminate | simpl; auto].
Defined.

Lemma refused_id_500_witness :
  (status (fst (PUT decimal_id ann on_collection sample)) = 500 /\
   snd (PUT decimal_id ann on_collection sample) = sample) /\
  (status (fst (DELETE decimal_id ann on_collection sample)) = 500 /\
   snd (DELETE decimal_id ann on_collection sample) = sample).
Proof.
  apply (refused_id_500 decimal_id ann on_collection sample
           "ann@school.org" "entry");
    try reflexivity. discriminate.
Defined.



Lemma DELETE_then_GET_witness :
  entries_of (GET ann (snd (DELETE decimal_id ann on_entry1 sample))) =
    filter (fun row => negb (r_id row =? 1)) (entries_of (GET ann sample)).
Proof.
  apply (DELETE_then_GET decimal_id ann on_entry1 sample "1" entry1);
    try reflexivity; [apply sample_NoDup | discriminate | simpl; auto].
Defined.

Lemma handleCompetencyChange_twice_witness :
  handleCompetencyChange 2 (handleCompetencyChange 2 ann_draft) = ann_draft.
Proof.
  apply (handleCompetencyChange_twice 2 ann_draft).
  simpl. intros [H|[H|[]]]; discriminate H.
Defined.

Lemma handleDelete_page_follows_GET_witness :
  let st' := fst (handleDelete decimal_id ann 1 ann_page sample) in
  let db' := snd (handleDelete decimal_id ann 1 ann_page sample) in
  thoughts st' = map (formatted sample_format) (entries_of (GET ann db')) /\
  ~ In 1 (map t_id (thoughts st')) /\
  competencies st' = competencies ann_page /\
  editing st' = editing ann_page /\
  newText st' = newText ann_page /\
  newCompetencies st' = newCompetencies ann_page.
Proof.
  apply (handleDelete_page_follows_GET decimal_id sample_format ann ann_page
           sample entry1);
    try reflexivity; [apply sample_NoDup | simpl; auto].
Defined.


Lemma handleSaveEdit_no_competency_witness :
  exists st' db',
    handleSaveEdit decimal_id ann ann_cleared sample = Some (st', db') /\
    In (mkThought 1 "first" "1000" []) (thoughts st') /\
    thoughts st' <>
      map (formatted sample_format) (entries_of (GET ann db')).
Proof.
  apply (handleSaveEdit_no_competency decimal_id sample_format ann
           ann_cleared sample entry1 thought1);
    try reflexivity; [apply sample_NoDup | simpl; auto].
Defined.

Lemma DELETE_unknown_id_unchanged_witness :
  status (fst (DELETE decimal_id ann on_entry7 sample)) = 404 /\
  snd (DELETE decimal_id ann on_entry7 sample) = sample.
Proof.
  apply (DELETE_unknown_id_unchanged decimal_id ann on_entry7 sample
           "ann@school.org" "7" 7);
    try reflexivity; [apply sample_refs_ok | discriminate |].
  simpl. intros [H|[H|[]]]; discriminate H.
Defined.

Lemma POST_PUT_invisible_to_others_witness :
  entries_of
    (GET bob (snd (POST decimal_id ann on_entry1 3000 3001 sample))) =
    entries_of (GET bob sample) /\
  entries_of (GET bob (snd (PUT decimal_id ann on_entry1 sample))) =
    entries_of (GET bob sample).
Proof.
  apply (POST_PUT_invisible_to_others decimal_id ann bob on_entry1 3000 3001
           sample "ann@school.org" "bob@school.org");
    try reflexivity; [apply sample_wf | discriminate].
Defined.
